(** * MarketDataService: the reconnecting Finnhub streaming client

    A shallow embedding of [src/services/MarketDataService.ts] and the
    properties of its connection life cycle, subscription bookkeeping,
    reconnect policy and inbound message decoding; and, around it, of the
    logger it writes to, the helpers that read its configuration, and the
    notification queue that consumes its 'market:connection-lost' event.

    The service is a single JavaScript object driven by an event loop: the
    caller-facing methods and the WebSocket / timer callbacks all run to
    completion, one at a time, over the same mutable fields.  Each method
    and each callback is a computation in a small monad that threads the
    fields of the object, records the calls made to the outside (socket,
    timers, event bus, logger, the [connect] promise) and propagates
    JavaScript exceptions, those of the bus's listeners included. *)

From Stdlib Require Import List String Bool NArith ZArith Arith Lia PrimFloat.
From Stdlib Require Import DecimalString.
Import ListNotations.

Set Warnings "-register-all".

Local Open Scope string_scope.
Local Open Scope N_scope.
Local Open Scope list_scope.

Set Implicit Arguments.

(* ===================================================================== *)
(** * JavaScript values *)
(* ===================================================================== *)

Module Js.

(** The value [JSON.parse] returns.  Numbers are IEEE-754 doubles, as in
    JavaScript.  An object is the list of its own properties, in
    insertion order, each key occurring once. *)
Inductive JSON : Type :=
| JNull
| JBool (b : bool)
| JNumber (n : float)
| JString (s : string)
| JArray (items : list JSON)
| JObject (fields : list (string * JSON)).

(** A JavaScript value that came out of a property read: a JSON value or
    [undefined]. *)
Definition Value : Type := option JSON.
Definition undefined : Value := None.

(** Exceptions the modelled code can meet. *)
Inductive Exception : Type :=
| TypeError
| SyntaxError
| Error (message : string).

Fixpoint lookup (k : string) (fields : list (string * JSON)) : Value :=
  match fields with
  | [] => undefined
  | (k', v) :: rest => if String.eqb k k' then Some v else lookup k rest
  end.

(** [x.k] for a property name [k] that no prototype defines and that is
    neither an array index nor ["length"] (the service reads [type],
    [data], [s], [p], [v] and [t] only).  Reading a property of [null]
    throws; a primitive or an array has no such property. *)
Definition get (x : JSON) (k : string) : Exception + Value :=
  match x with
  | JNull => inl TypeError
  | JObject fields => inr (lookup k fields)
  | _ => inr undefined
  end.

(** [x === 'lit'] against a string literal. *)
Definition strict_eq_string (x : Value) (lit : string) : bool :=
  match x with
  | Some (JString s) => String.eqb s lit
  | _ => false
  end.

(** ToBoolean. *)
Definition truthy (x : Value) : bool :=
  match x with
  | None => false
  | Some JNull => false
  | Some (JBool b) => b
  | Some (JNumber n) =>
      negb (PrimFloat.eqb n 0%float) && PrimFloat.eqb n n
  | Some (JString s) => negb (String.eqb s "")
  | Some (JArray _) => true
  | Some (JObject _) => true
  end.

(** ** [Set<string>]

    A JavaScript [Set] iterates in insertion order and holds each
    element once: a duplicate-free list, new elements at the end. *)
Definition StringSet : Type := list string.

Definition has (x : string) (l : StringSet) : bool :=
  existsb (String.eqb x) l.

Definition add (x : string) (l : StringSet) : StringSet :=
  if has x l then l else l ++ [x].

Definition delete (x : string) (l : StringSet) : StringSet :=
  filter (fun y => negb (String.eqb x y)) l.

Definition clear (l : StringSet) : StringSet := [].

Definition size (l : StringSet) : N := N.of_nat (List.length l).

(** [Array.from(set)]. *)
Definition array_from (l : StringSet) : list string := l.

End Js.

Import Js.

(* ===================================================================== *)
(** * The service object and its surroundings *)
(* ===================================================================== *)

(** [WebSocket.readyState]. *)
Inductive ReadyState : Type := CONNECTING | OPEN | CLOSING | CLOSED.

Definition ReadyState_eqb (a b : ReadyState) : bool :=
  match a, b with
  | CONNECTING, CONNECTING | OPEN, OPEN | CLOSING, CLOSING | CLOSED, CLOSED => true
  | _, _ => false
  end.

(** The socket held in [this.ws]; the service reads nothing of it but its
    [readyState]. *)
Record WebSocket : Type := { readyState : ReadyState }.

(** The three callbacks the service hands to [setTimeout] / [setInterval]. *)
Inductive TimerCallback : Type :=
| ConnectionTimeoutCallback
| PingCallback
| ReconnectCallback.

(** A [NodeJS.Timeout] handle: which callback it runs and after how many
    milliseconds. *)
Record TimerHandle : Type := { callback : TimerCallback; ms : N }.

(** [MarketTick] of [src/types/index.ts].  The fields are copied from the
    parsed frame without any check, so at run time they hold whatever
    the frame held. *)
Record MarketTick : Type := {
  symbol : Value;
  price : Value;
  volume : Value;
  timestamp : Value
}.

(** What the service publishes on the event bus. *)
Inductive BusEvent : Type :=
| market_tick (tick : MarketTick)          (* 'market:tick' *)
| market_connection_lost.                  (* 'market:connection-lost' *)

Inductive LogLevel : Type := debug | info | warn | error.

(** Calls the service makes to the outside, in program order. *)
Inductive Effect : Type :=
| WsNew (url : string)                     (* new WebSocket(url) *)
| WsSend (frame : JSON)                    (* ws.send(JSON.stringify(frame)) *)
| WsCloseCall                              (* ws.close() *)
| WsTerminate                              (* ws.terminate() *)
| WsPingCall                               (* ws.ping() *)
| SetTimeout (cb : TimerCallback) (delay : N)
| ClearTimeout (h : TimerHandle)
| SetInterval (cb : TimerCallback) (delay : N)
| ClearInterval (h : TimerHandle)
| Emit (e : BusEvent)                      (* eventBus.emit(...) *)
| Resolve                                  (* resolve() of the connect promise *)
| Reject (e : Exception)                   (* reject(e) of the connect promise *)
| Log (level : LogLevel) (message : string)
| Uncaught (e : Exception).                (* process 'uncaughtException' *)

(** The fields of [MarketDataService].  [maxReconnectAttempts] and
    [reconnectDelay] are initialised once and never assigned again; they
    are the constants below.  The logger holds no state of interest. *)
Record Service : Type := mkService {
  apiKey : string;
  wsUrl : string;
  ws : option WebSocket;
  running : bool;
  reconnectAttempts : N;
  subscribedSymbols : StringSet;
  pingInterval : option TimerHandle;
  connectionTimeout : option TimerHandle
}.

Definition maxReconnectAttempts : N := 5.
Definition reconnectDelay : N := 5000.

(** [new MarketDataService(apiKey, wsUrl)]. *)
Definition new_MarketDataService (key url : string) : Service :=
  {| apiKey := key; wsUrl := url; ws := None; running := false;
     reconnectAttempts := 0; subscribedSymbols := [];
     pingInterval := None; connectionTimeout := None |}.

Definition set_ws (x : option WebSocket) (s : Service) : Service :=
  mkService (apiKey s) (wsUrl s) x (running s) (reconnectAttempts s)
            (subscribedSymbols s) (pingInterval s) (connectionTimeout s).

Definition set_running (x : bool) (s : Service) : Service :=
  mkService (apiKey s) (wsUrl s) (ws s) x (reconnectAttempts s)
            (subscribedSymbols s) (pingInterval s) (connectionTimeout s).

Definition set_reconnectAttempts (x : N) (s : Service) : Service :=
  mkService (apiKey s) (wsUrl s) (ws s) (running s) x
            (subscribedSymbols s) (pingInterval s) (connectionTimeout s).

Definition set_subscribedSymbols (x : StringSet) (s : Service) : Service :=
  mkService (apiKey s) (wsUrl s) (ws s) (running s) (reconnectAttempts s)
            x (pingInterval s) (connectionTimeout s).

Definition set_pingInterval (x : option TimerHandle) (s : Service) : Service :=
  mkService (apiKey s) (wsUrl s) (ws s) (running s) (reconnectAttempts s)
            (subscribedSymbols s) x (connectionTimeout s).

Definition set_connectionTimeout (x : option TimerHandle) (s : Service) : Service :=
  mkService (apiKey s) (wsUrl s) (ws s) (running s) (reconnectAttempts s)
            (subscribedSymbols s) (pingInterval s) x.

(** [this.ws && this.ws.readyState === WebSocket.OPEN]. *)
Definition ws_is_open (s : Service) : bool :=
  match ws s with
  | Some w => ReadyState_eqb (readyState w) OPEN
  | None => false
  end.

(* ===================================================================== *)
(** * The monad of method bodies *)
(* ===================================================================== *)

(** How a body ends: normally with a value, or with a thrown exception. *)
Inductive Completion (A : Type) : Type :=
| Normal (a : A)
| Throw (e : Exception).

Arguments Normal {A} a.
Arguments Throw {A} e.

(** The outcome of running a body: how it ended, the fields afterwards,
    and the calls it made. *)
Record Outcome (A : Type) : Type := mkOutcome {
  completion : Completion A;
  state : Service;
  effects : list Effect
}.

Definition M (A : Type) : Type := Service -> Outcome A.

Definition ret {A} (a : A) : M A :=
  fun s => mkOutcome (Normal a) s [].

Definition bind {A B} (m : M A) (k : A -> M B) : M B :=
  fun s =>
    match m s with
    | mkOutcome (Normal a) s1 effs1 =>
        match k a s1 with
        | mkOutcome c s2 effs2 => mkOutcome c s2 (effs1 ++ effs2)
        end
    | mkOutcome (Throw e) s1 effs1 => mkOutcome (Throw e) s1 effs1
    end.

Declare Scope js_scope.
Delimit Scope js_scope with js.
Notation "x <- m ;; k" := (bind m (fun x => k))
  (at level 61, m at next level, right associativity) : js_scope.
Notation "m ;; k" := (bind m (fun _ => k))
  (at level 61, right associativity) : js_scope.
Local Open Scope js_scope.

Definition this : M Service := fun s => mkOutcome (Normal s) s [].

Definition assign (f : Service -> Service) : M unit :=
  fun s => mkOutcome (Normal tt) (f s) [].

Definition call (e : Effect) : M unit :=
  fun s => mkOutcome (Normal tt) s [e].

Definition throw {A} (e : Exception) : M A :=
  fun s => mkOutcome (Throw e) s [].

(** [try { body } catch (e) { handler e }]: what the body did before it
    threw stays done. *)
Definition try_catch {A} (body : M A) (handler : Exception -> M A) : M A :=
  fun s =>
    match body s with
    | mkOutcome (Normal a) s1 effs1 => mkOutcome (Normal a) s1 effs1
    | mkOutcome (Throw e) s1 effs1 =>
        match handler e s1 with
        | mkOutcome c s2 effs2 => mkOutcome c s2 (effs1 ++ effs2)
        end
    end.

(** Lift a property read. *)
Definition read (x : Exception + Value) : M Value :=
  match x with
  | inl e => throw e
  | inr v => ret v
  end.

(** [xs.forEach(f)]: an exception in [f] ends the loop. *)
Fixpoint forEach {A} (f : A -> M unit) (xs : list A) : M unit :=
  match xs with
  | [] => ret tt
  | x :: rest => f x ;; forEach f rest
  end.

Definition when (b : bool) (m : M unit) : M unit :=
  if b then m else ret tt.

Definition logger (level : LogLevel) (message : string) : M unit :=
  call (Log level message).

(** [String(n)] for a non-negative integer below 2^53. *)
Definition number_to_string (n : N) : string :=
  NilEmpty.string_of_uint (N.to_uint n).

(** The state of the promise a call hands back to its caller at the
    moment the call returns. *)
Inductive Promise : Type :=
| Fulfilled
| Pending
| Rejected (e : Exception).

(* ===================================================================== *)
(** * The methods of [MarketDataService] *)
(* ===================================================================== *)

Section Methods.

(** The two library entry points the service depends on: [JSON.parse]
    ([None] when it throws its [SyntaxError]) and the [WebSocket]
    constructor ([Some e] when it throws [e], as it does on a malformed
    URL; otherwise the socket starts out [CONNECTING]). *)
Variable JSON_parse : string -> option JSON.
Variable WebSocket_new : string -> option Exception.

(** The listeners registered on the event bus ([utils/eventBus], an
    event emitter).  [emit] runs them synchronously, inside the caller:
    [Some e] when one of them throws [e] on the event, which then leaves
    [emit] as an exception.  The listeners of this repository
    ([test-finnhub.ts], [TradingEngineService], [NotificationService])
    do not call back into the service. *)
Variable listeners : BusEvent -> option Exception.

(** [eventBus.emit(...)]. *)
Definition emit (b : BusEvent) : M unit :=
  call (Emit b) ;;
  match listeners b with
  | Some e => throw e
  | None => ret tt
  end.

Definition parse (data : string) : M JSON :=
  match JSON_parse data with
  | Some message => ret message
  | None => throw SyntaxError
  end.

Definition construct (url : string) : M WebSocket :=
  call (WsNew url) ;;
  match WebSocket_new url with
  | Some e => throw e
  | None => ret {| readyState := CONNECTING |}
  end.

(** [ws.terminate()]: the library moves a socket that is not yet
    [CLOSED] to [CLOSING]. *)
Definition terminate : M unit :=
  call WsTerminate ;;
  assign (fun s =>
    match ws s with
    | Some w =>
        match readyState w with
        | CLOSED => s
        | _ => set_ws (Some {| readyState := CLOSING |}) s
        end
    | None => s
    end).

(** ** connect (lines 158-229)

    The executor of the promise runs synchronously; the promise it
    returns is still pending unless the constructor threw.  The
    handlers it registers are the [on_*] definitions below. *)
Definition connect : M Promise :=
  try_catch
    (s <- this ;;
     let url := (wsUrl s ++ "?token=" ++ apiKey s)%string in
     logger debug "Connecting to Finnhub WebSocket" ;;
     w <- construct url ;;
     assign (set_ws (Some w)) ;;
     call (SetTimeout ConnectionTimeoutCallback 10000) ;;
     assign (set_connectionTimeout
               (Some {| callback := ConnectionTimeoutCallback; ms := 10000 |})) ;;
     ret Pending)
    (fun e =>
     logger error "Failed to connect to WebSocket" ;;
     call (Reject e) ;;
     ret (Rejected e)).

(** ** start (lines 49-59)

    [await this.connect()] suspends the caller on the promise of
    [connect]; the log line after it runs when that promise is
    resolved. *)
Definition start : M Promise :=
  s <- this ;;
  if running s then
    logger warn "Service already running" ;;
    ret Fulfilled
  else
    logger info "Starting market data service" ;;
    assign (set_running true) ;;
    connect.

(** ** stop (lines 61-88) *)
Definition stop : M Promise :=
  s <- this ;;
  if negb (running s) then
    logger warn "Service not running" ;;
    ret Fulfilled
  else
    logger info "Stopping market data service" ;;
    assign (set_running false) ;;
    match pingInterval s with
    | Some h => call (ClearInterval h) ;; assign (set_pingInterval None)
    | None => ret tt
    end ;;
    match connectionTimeout s with
    | Some h => call (ClearTimeout h) ;; assign (set_connectionTimeout None)
    | None => ret tt
    end ;;
    match ws s with
    | Some _ => call WsCloseCall ;; assign (set_ws None)
    | None => ret tt
    end ;;
    assign (fun s => set_subscribedSymbols (clear (subscribedSymbols s)) s) ;;
    logger info "Market data service stopped" ;;
    ret Fulfilled.

(** ** isRunning (lines 90-92) *)
Definition isRunning (s : Service) : bool := running s.

(** The frame [{type: ..., symbol: ...}] handed to [JSON.stringify]. *)
Definition frame (type sym : string) : JSON :=
  JObject [("type", JString type); ("symbol", JString sym)].

(** ** subscribe (lines 97-119) *)
Definition subscribe (sym : string) : M unit :=
  s <- this ;;
  match running s, ws s with
  | true, Some w =>
      if negb (ReadyState_eqb (readyState w) OPEN) then
        logger warn "WebSocket not ready, queuing subscription" ;;
        assign (fun s => set_subscribedSymbols (add sym (subscribedSymbols s)) s)
      else
        logger info ("Subscribing to " ++ sym)%string ;;
        assign (fun s => set_subscribedSymbols (add sym (subscribedSymbols s)) s) ;;
        call (WsSend (frame "subscribe" sym)) ;;
        logger debug "Sent subscribe message"
  | _, _ =>
      logger error "Cannot subscribe - service not running"
  end.

(** ** unsubscribe (lines 124-146) *)
Definition unsubscribe (sym : string) : M unit :=
  s <- this ;;
  match running s, ws s with
  | true, Some w =>
      if negb (ReadyState_eqb (readyState w) OPEN) then
        logger warn "WebSocket not ready" ;;
        assign (fun s => set_subscribedSymbols (delete sym (subscribedSymbols s)) s)
      else
        logger info ("Unsubscribing from " ++ sym)%string ;;
        assign (fun s => set_subscribedSymbols (delete sym (subscribedSymbols s)) s) ;;
        call (WsSend (frame "unsubscribe" sym)) ;;
        logger debug "Sent unsubscribe message"
  | _, _ =>
      logger error "Cannot unsubscribe - service not running"
  end.

(** ** getSubscribedSymbols (lines 151-153) *)
Definition getSubscribedSymbols (s : Service) : list string :=
  array_from (subscribedSymbols s).

(** ** setupPingInterval (lines 234-242) *)
Definition setupPingInterval : M unit :=
  call (SetInterval PingCallback 30000) ;;
  assign (set_pingInterval (Some {| callback := PingCallback; ms := 30000 |})).

(** ** handleMessage (lines 247-277) *)
Definition tick_of (trade : JSON) : M MarketTick :=
  s <- read (get trade "s") ;;
  p <- read (get trade "p") ;;
  v <- read (get trade "v") ;;
  t <- read (get trade "t") ;;
  ret {| symbol := s; price := p; volume := v; timestamp := t |}.

(** The arrow function handed to [forEach], lines 259-269. *)
Definition publish (trade : JSON) : M unit :=
  tick <- tick_of trade ;;
  logger debug "Market tick" ;;
  emit (market_tick tick).

(** [data.forEach(f)] on a truthy value: only an array has the method. *)
Definition value_forEach (data : Value) (f : JSON -> M unit) : M unit :=
  match data with
  | Some (JArray items) => forEach f items
  | _ => throw TypeError
  end.

Definition handleMessage (data : string) : M unit :=
  try_catch
    (message <- parse data ;;
     type <- read (get message "type") ;;
     if strict_eq_string type "ping" then
       logger debug "Received ping message"
     else if strict_eq_string type "trade" then
       payload <- read (get message "data") ;;
       if truthy payload then
         logger debug "Received trade data" ;;
         value_forEach payload publish
       else ret tt
     else ret tt)
    (fun _ => logger error "Error handling WebSocket message").

(** ** handleDisconnect (lines 282-306) *)
Definition handleDisconnect : M unit :=
  s <- this ;;
  if negb (running s) then ret tt
  else if reconnectAttempts s <? maxReconnectAttempts then
    assign (set_reconnectAttempts (reconnectAttempts s + 1)) ;;
    s <- this ;;
    let delay := reconnectDelay * reconnectAttempts s in
    logger info ("Attempting to reconnect in " ++ number_to_string delay
                 ++ "ms (" ++ number_to_string (reconnectAttempts s)
                 ++ "/" ++ number_to_string maxReconnectAttempts ++ ")")%string ;;
    call (SetTimeout ReconnectCallback delay)
  else
    logger error "Max reconnect attempts reached" ;;
    emit market_connection_lost.

(** ** resubscribeAll (lines 311-325) *)
Definition resubscribeAll : M unit :=
  s <- this ;;
  if size (subscribedSymbols s) =? 0 then
    logger debug "No symbols to resubscribe"
  else
    logger info "Resubscribing to all symbols" ;;
    let symbols := array_from (subscribedSymbols s) in
    assign (fun s => set_subscribedSymbols (clear (subscribedSymbols s)) s) ;;
    forEach subscribe symbols.

(** ** The callbacks registered in connect *)

(** The [setTimeout] callback of lines 167-173. *)
Definition on_connectionTimeout : M unit :=
  s <- this ;;
  match ws s with
  | Some w =>
      if negb (ReadyState_eqb (readyState w) OPEN) then
        logger error "Connection timeout" ;;
        terminate ;;
        call (Reject (Error "WebSocket connection timeout"))
      else ret tt
  | None => ret tt
  end.

(** [ws.on('open', ...)], lines 175-191. *)
Definition on_open : M unit :=
  logger info "WebSocket connected successfully" ;;
  assign (set_reconnectAttempts 0) ;;
  s <- this ;;
  match connectionTimeout s with
  | Some h => call (ClearTimeout h) ;; assign (set_connectionTimeout None)
  | None => ret tt
  end ;;
  resubscribeAll ;;
  setupPingInterval ;;
  call Resolve.

(** [ws.on('message', ...)], lines 193-195. *)
Definition on_message (data : string) : M unit := handleMessage data.

(** [ws.on('error', ...)], lines 197-202. *)
Definition on_error (e : Exception) : M unit :=
  logger error "WebSocket error" ;;
  s <- this ;;
  if negb (ws_is_open s) then call (Reject e) else ret tt.

(** [ws.on('close', ...)], lines 204-214. *)
Definition on_close : M unit :=
  logger warn "WebSocket disconnected" ;;
  s <- this ;;
  match pingInterval s with
  | Some h => call (ClearInterval h) ;; assign (set_pingInterval None)
  | None => ret tt
  end ;;
  handleDisconnect.

(** [ws.on('ping', ...)] and [ws.on('pong', ...)], lines 216-222. *)
Definition on_ping : M unit := logger debug "Received ping from server".
Definition on_pong : M unit := logger debug "Received pong from server".

(** The [setInterval] callback of lines 236-241. *)
Definition on_pingInterval : M unit :=
  s <- this ;;
  if ws_is_open s then
    call WsPingCall ;;
    logger debug "Sent ping to server"
  else ret tt.

(** The [setTimeout] callback of lines 295-301; the [catch] handler
    runs when the promise of [connect] is rejected. *)
Definition on_reconnectTimer : M unit :=
  s <- this ;;
  if running s then
    p <- connect ;;
    match p with
    | Rejected _ => logger error "Reconnection failed"
    | _ => ret tt
    end
  else ret tt.

(* =================================================================== *)
(** ** The event loop *)
(* =================================================================== *)

(** Whatever can run a piece of the service: a call from the owner of
    the object, an event of a WebSocket, or a timer firing.

    [connect] registers the same handlers on every socket it creates,
    and they all work on [this.ws], whichever socket the event belongs
    to.  The service lets go of a socket in two ways: [stop()] closes it
    and forgets it, and [connect] overwrites [this.ws] without closing
    what it held.  So an event may belong to the socket in [this.ws] or
    to one the service has let go of ([stale]): a close event says which,
    [Ws_open] is the open of the socket held, and [Ws_open_stale] the
    open of a socket that [connect] replaced while it was still
    connecting.  For the other socket events the handler does the same
    in both cases. *)
Inductive Event : Type :=
| Call_start
| Call_stop
| Call_subscribe (sym : string)
| Call_unsubscribe (sym : string)
| Ws_open
| Ws_message (data : string)
| Ws_error (e : Exception)
| Ws_close (stale : bool)
| Ws_ping
| Ws_pong
| Timer_fires (cb : TimerCallback)
| Ws_open_stale.

(** The library updates [readyState] before it emits an event. *)
Definition transport (rs : ReadyState) : M unit :=
  assign (fun s =>
    match ws s with
    | Some _ => set_ws (Some {| readyState := rs |}) s
    | None => s
    end).

Definition discard {A} (m : M A) : M unit := _ <- m ;; ret tt.

(** The code an event runs. *)
Definition handler (e : Event) : M unit :=
  match e with
  | Call_start => discard start
  | Call_stop => discard stop
  | Call_subscribe sym => subscribe sym
  | Call_unsubscribe sym => unsubscribe sym
  | Ws_open => transport OPEN ;; on_open
  | Ws_message data => on_message data
  | Ws_error e => on_error e
  | Ws_close stale => (if stale then ret tt else transport CLOSED) ;; on_close
  | Ws_ping => on_ping
  | Ws_pong => on_pong
  | Timer_fires ConnectionTimeoutCallback => on_connectionTimeout
  | Timer_fires PingCallback => on_pingInterval
  | Timer_fires ReconnectCallback => on_reconnectTimer
  | Ws_open_stale => on_open
  end.

(** The events that run a callback of the service from the event loop,
    as opposed to a call by the owner of the object. *)
Definition is_callback (e : Event) : bool :=
  match e with
  | Call_start | Call_stop | Call_subscribe _ | Call_unsubscribe _ => false
  | _ => true
  end.

(** One turn of the event loop.  An exception that leaves a callback has
    no caller to go to: it reaches the host ('uncaughtException'), and
    the object is as the callback left it.  Whether the process lives on
    is up to the host; a run of events is the list of the events served
    until then. *)
Definition turn (m : M unit) : M unit :=
  try_catch m (fun e => call (Uncaught e)).

Definition dispatch (e : Event) : M unit :=
  if is_callback e then turn (handler e) else handler e.

(** The socket in [this.ws] emits 'open' once, while it is still
    connecting.  Which of the sockets let go of are still connecting is
    not tracked: their open, like every other event, may come in any
    state, which can only add runs. *)
Definition enabled (e : Event) (s : Service) : bool :=
  match e with
  | Ws_open =>
      match ws s with
      | Some w => ReadyState_eqb (readyState w) CONNECTING
      | None => false
      end
  | _ => true
  end.

Definition run (events : list Event) : M unit := forEach dispatch events.

(** Every event of the run is enabled in the state it meets. *)
Fixpoint runnable (events : list Event) (s : Service) : bool :=
  match events with
  | [] => true
  | e :: rest => enabled e s && runnable rest (state (dispatch e s))
  end.

(** The states the event loop can bring a fresh service to. *)
Inductive reachable : Service -> Prop :=
| reachable_new key url : reachable (new_MarketDataService key url)
| reachable_step e s :
    reachable s -> enabled e s = true -> reachable (state (dispatch e s)).

End Methods.

(* ===================================================================== *)
(** * Reading the record of calls *)
(* ===================================================================== *)

(** The frames handed to [ws.send], in order. *)
Definition sent (effs : list Effect) : list JSON :=
  flat_map (fun e => match e with WsSend f => [f] | _ => [] end) effs.

(** The events published on the bus, in order. *)
Definition emitted (effs : list Effect) : list BusEvent :=
  flat_map (fun e => match e with Emit b => [b] | _ => [] end) effs.

(** The ticks among them. *)
Definition ticks (effs : list Effect) : list MarketTick :=
  flat_map (fun b => match b with market_tick t => [t] | _ => [] end) (emitted effs).

(** How many times 'market:connection-lost' was published. *)
Definition connection_lost (effs : list Effect) : nat :=
  List.length (filter (fun b => match b with market_connection_lost => true | _ => false end)
                      (emitted effs)).

(** The delays of the reconnect attempts handed to [setTimeout]. *)
Definition scheduled_reconnects (effs : list Effect) : list N :=
  flat_map (fun e => match e with SetTimeout ReconnectCallback d => [d] | _ => [] end) effs.

(** Everything but the log lines. *)
Definition is_log (e : Effect) : bool :=
  match e with Log _ _ => true | _ => false end.

Definition actions (effs : list Effect) : list Effect :=
  filter (fun e => negb (is_log e)) effs.

(** How often [ws.close()] was called. *)
Definition closes (effs : list Effect) : nat :=
  List.length (filter (fun e => match e with WsCloseCall => true | _ => false end) effs).

(** One time unit of the design (a second), in the milliseconds the code
    counts in. *)
Definition time_unit : N := 1000.




(** Any event but a successful open and a [stop()]. *)
Definition keeps_failing (e : Event) : bool :=
  match e with
  | Ws_open | Ws_open_stale | Call_stop => false
  | _ => true
  end.

Definition is_close (e : Event) : bool :=
  match e with Ws_close _ => true | _ => false end.

(** The number of disconnects in a run of events. *)
Definition disconnects (events : list Event) : nat :=
  List.length (filter is_close events).

(** The condition under which the service is consistent:  the set holds
    no symbol twice, and a service that is not running holds no socket,
    no symbol and no connect timeout.  (It may hold a keepalive handle:
    the open of a socket let go of sets one whether the service runs or
    not.) *)
Record consistent (s : Service) : Prop := {
  symbols_nodup : NoDup (subscribedSymbols s);
  stopped_ws : running s = false -> ws s = None;
  stopped_symbols : running s = false -> subscribedSymbols s = [];
  stopped_timeout : running s = false -> connectionTimeout s = None
}.

(** The typed trade entry of [FinnhubTradeMessage], and the JSON object
    that carries it. *)
Record Trade : Type := {
  trade_s : string;
  trade_p : float;
  trade_v : float;
  trade_t : float;
  trade_c : list string
}.

Definition trade_json (x : Trade) : JSON :=
  JObject [("s", JString (trade_s x)); ("p", JNumber (trade_p x));
           ("v", JNumber (trade_v x)); ("t", JNumber (trade_t x));
           ("c", JArray (map JString (trade_c x)))].

Definition trade_message (batch : list Trade) : JSON :=
  JObject [("type", JString "trade"); ("data", JArray (map trade_json batch))].

Definition tick_of_trade (x : Trade) : MarketTick :=
  {| symbol := Some (JString (trade_s x)); price := Some (JNumber (trade_p x));
     volume := Some (JNumber (trade_v x)); timestamp := Some (JNumber (trade_t x)) |}.

(** The tick the code builds from an arbitrary non-null entry. *)
Definition tick_of_entry (entry : JSON) : MarketTick :=
  match entry with
  | JObject fields =>
      {| symbol := lookup "s" fields; price := lookup "p" fields;
         volume := lookup "v" fields; timestamp := lookup "t" fields |}
  | _ => {| symbol := undefined; price := undefined;
            volume := undefined; timestamp := undefined |}
  end.

(** A frame the decoder drops: a ping, or a value whose [type] is not
    ['trade'] (a missing [type], and [null], included). *)
Definition is_ping (message : JSON) : bool :=
  match get message "type" with
  | inr type => strict_eq_string type "ping"
  | inl _ => false
  end.

Definition is_trade (message : JSON) : bool :=
  match get message "type" with
  | inr type => strict_eq_string type "trade"
  | inl _ => false
  end.

(* ===================================================================== *)
(** * Vocabulary of the statements *)
(* ===================================================================== *)

(** [this.ws] is set. *)
Definition has_socket (s : Service) : bool :=
  match ws s with Some _ => true | None => false end.

(** The service with its set replaced by [f] of it. *)
Definition with_symbols (f : StringSet -> StringSet) (s : Service) : Service :=
  set_subscribedSymbols (f (subscribedSymbols s)) s.

(** The frames the decoder drops: a ping, a frame whose [type] is not
    ['trade'], a text that is not JSON. *)
Definition dropped (JSON_parse : string -> option JSON) (data : string) : bool :=
  match JSON_parse data with
  | None => true
  | Some message => is_ping message || negb (is_trade message)
  end.

(** The lines one call of [subscribe] on an open socket leaves behind. *)
Definition subscribe_lines (sym : string) : list Effect :=
  [Log info ("Subscribing to " ++ sym)%string;
   WsSend (frame "subscribe" sym);
   Log debug "Sent subscribe message"].

(** What [resubscribeAll] leaves behind on an open socket. *)
Definition replay_lines (symbols : list string) : list Effect :=
  if size symbols =? 0 then [Log debug "No symbols to resubscribe"]
  else Log info "Resubscribing to all symbols" :: flat_map subscribe_lines symbols.

(** The handles [setupPingInterval] and [connect] store. *)
Definition ping_handle : TimerHandle := {| callback := PingCallback; ms := 30000 |}.
Definition timeout_handle : TimerHandle :=
  {| callback := ConnectionTimeoutCallback; ms := 10000 |}.

(** The calls made when a stored timer handle is cleared. *)
Definition cleared (clear_call : TimerHandle -> Effect) (h : option TimerHandle) : list Effect :=
  match h with Some h => [clear_call h] | None => [] end.

(** An effect of the decoder: a log line or a tick. *)
Definition decoder_effect (e : Effect) : bool :=
  match e with
  | Log _ _ | Emit (market_tick _) => true
  | _ => false
  end.

(** An effect that neither schedules a reconnect nor reports a lost
    connection. *)
Definition quiet_effect (e : Effect) : bool :=
  match e with
  | SetTimeout ReconnectCallback _ | Emit market_connection_lost => false
  | _ => true
  end.

Definition is_stop (e : Event) : bool :=
  match e with Call_stop => true | _ => false end.

(** The delays of the five attempts of the budget, in milliseconds. *)
Definition backoff : list N :=
  map (fun attempt => 5 * attempt * time_unit) [1; 2; 3; 4; 5].

(** The URL [connect] dials. *)
Definition url_of (s : Service) : string := (wsUrl s ++ "?token=" ++ apiKey s)%string.

(** The fields after a successful open. *)
Definition opened (s : Service) : Service :=
  set_pingInterval (Some ping_handle)
    (set_connectionTimeout None
       (set_reconnectAttempts 0 (set_ws (Some {| readyState := OPEN |}) s))).

(** The fields after a disconnect within the budget. *)
Definition disconnected (stale : bool) (s : Service) : Service :=
  set_reconnectAttempts (reconnectAttempts s + 1)
    (set_pingInterval None
       (if stale then s
        else match ws s with
             | Some _ => set_ws (Some {| readyState := CLOSED |}) s
             | None => s
             end)).

(** What a successful open leaves behind. *)
Definition open_lines (h : option TimerHandle) (l : list string) : list Effect :=
  Log info "WebSocket connected successfully"
    :: cleared ClearTimeout h ++ replay_lines l
    ++ [SetInterval PingCallback 30000; Resolve].

(** An effect that touches neither socket nor timer: a log line, a
    tick, or a call of [reject]. *)
Definition passive_effect (e : Effect) : bool :=
  match e with
  | Log _ _ | Emit (market_tick _) | Reject _ => true
  | _ => false
  end.

Definition is_start (e : Event) : bool :=
  match e with Call_start => true | _ => false end.

(** An 'open' event, of whichever socket. *)
Definition is_open_event (e : Event) : bool :=
  match e with Ws_open | Ws_open_stale => true | _ => false end.

(** The open of the socket in [this.ws]. *)
Definition is_held_open (e : Event) : bool :=
  match e with Ws_open => true | _ => false end.

(** The callbacks of the timers handed to [clearTimeout] and
    [clearInterval], in order. *)
Definition cancelled (effs : list Effect) : list TimerCallback :=
  flat_map (fun e => match e with
                     | ClearTimeout h | ClearInterval h => [callback h]
                     | _ => []
                     end) effs.


(** The URLs handed to [new WebSocket]. *)
Definition dialled (effs : list Effect) : list string :=
  flat_map (fun e => match e with WsNew u => [u] | _ => [] end) effs.

(** How often [ws.ping()] was called. *)
Definition pings (effs : list Effect) : nat :=
  List.length (filter (fun e => match e with WsPingCall => true | _ => false end) effs).

(** A frame may go out: the socket is open, or the event is the open of
    the socket held. *)
Definition may_send (e : Event) (s : Service) : bool :=
  ws_is_open s || (is_held_open e && has_socket s).

(** An effect of the subscription methods: a log line or a frame. *)
Definition subscription_effect (e : Effect) : bool :=
  match e with
  | Log _ _ | WsSend _ => true
  | _ => false
  end.

(* ===================================================================== *)
(** * A concrete environment for the examples *)
(* ===================================================================== *)

Module Sample.

(** The double quote character. *)
Definition dq : string :=
  String (Ascii.Ascii false true false false false true false false) "".

Definition quoted (s : string) : string := (dq ++ s ++ dq)%string.

(** [{"type":"ping"}] *)
Definition ping_text : string :=
  ("{" ++ quoted "type" ++ ":" ++ quoted "ping" ++ "}")%string.

Definition ping_value : JSON := JObject [("type", JString "ping")].

(** [{"type":"news"}] *)
Definition news_text : string :=
  ("{" ++ quoted "type" ++ ":" ++ quoted "news" ++ "}")%string.

Definition news_value : JSON := JObject [("type", JString "news")].

(** [{"type":"trade","data":[{"s":"AAPL","p":150.25,"v":100,
     "t":1635782400000,"c":["1"]}]}] *)
Definition aapl : Trade :=
  {| trade_s := "AAPL"; trade_p := 150.25%float; trade_v := 100%float;
     trade_t := 1635782400000%float; trade_c := ["1"] |}.

Definition trade_text : string :=
  ("{" ++ quoted "type" ++ ":" ++ quoted "trade" ++ "," ++ quoted "data" ++ ":[{"
     ++ quoted "s" ++ ":" ++ quoted "AAPL" ++ "," ++ quoted "p" ++ ":150.25,"
     ++ quoted "v" ++ ":100," ++ quoted "t" ++ ":1635782400000,"
     ++ quoted "c" ++ ":[" ++ quoted "1" ++ "]}]}")%string.

(** [{"type":"trade","data":[{"s":"AAPL","p":1,"v":1,"t":1},null]}] *)
Definition torn_text : string :=
  ("{" ++ quoted "type" ++ ":" ++ quoted "trade" ++ "," ++ quoted "data" ++ ":[{"
     ++ quoted "s" ++ ":" ++ quoted "AAPL" ++ "," ++ quoted "p" ++ ":1,"
     ++ quoted "v" ++ ":1," ++ quoted "t" ++ ":1},null]}")%string.

Definition torn_value : JSON :=
  JObject [("type", JString "trade");
           ("data", JArray [JObject [("s", JString "AAPL"); ("p", JNumber 1%float);
                                     ("v", JNumber 1%float); ("t", JNumber 1%float)];
                            JNull])].

(** [JSON.parse] on the texts above; every other text of the examples
    is not JSON. *)
Definition JSON_parse (data : string) : option JSON :=
  if String.eqb data ping_text then Some ping_value
  else if String.eqb data news_text then Some news_value
  else if String.eqb data trade_text then Some (trade_message [aapl])
  else if String.eqb data torn_text then Some torn_value
  else None.

(** A constructor that accepts every URL. *)
Definition WebSocket_new (url : string) : option Exception := None.

(** Listeners that never throw. *)
Definition listeners (b : BusEvent) : option Exception := None.

Definition fresh : Service :=
  new_MarketDataService "token" "wss://ws.finnhub.io".

(** Started, socket still connecting. *)
Definition connecting : Service :=
  {| apiKey := "token"; wsUrl := "wss://ws.finnhub.io";
     ws := Some {| readyState := CONNECTING |}; running := true;
     reconnectAttempts := 0; subscribedSymbols := [];
     pingInterval := None;
     connectionTimeout := Some {| callback := ConnectionTimeoutCallback; ms := 10000 |} |}.

(** Started and open. *)
Definition open : Service :=
  {| apiKey := "token"; wsUrl := "wss://ws.finnhub.io";
     ws := Some {| readyState := OPEN |}; running := true;
     reconnectAttempts := 0; subscribedSymbols := [];
     pingInterval := Some {| callback := PingCallback; ms := 30000 |};
     connectionTimeout := None |}.

(** Running, the reconnect budget used up. *)
Definition exhausted : Service :=
  {| apiKey := "token"; wsUrl := "wss://ws.finnhub.io";
     ws := Some {| readyState := CLOSED |}; running := true;
     reconnectAttempts := 5; subscribedSymbols := ["AAPL"];
     pingInterval := None; connectionTimeout := None |}.

End Sample.

(** More inputs for the examples: a constructor that rejects every URL,
    and a trade frame without its [data]. *)
Module Faulty.

Definition WebSocket_new (url : string) : option Exception := Some SyntaxError.

(** [{"type":"trade"}] *)
Definition bare_trade_text : string :=
  ("{" ++ Sample.quoted "type" ++ ":" ++ Sample.quoted "trade" ++ "}")%string.

Definition bare_trade_value : JSON := JObject [("type", JString "trade")].

Definition JSON_parse (data : string) : option JSON :=
  if String.eqb data bare_trade_text then Some bare_trade_value
  else Sample.JSON_parse data.

(** A listener of 'market:connection-lost' that throws. *)
Definition listeners (b : BusEvent) : option Exception :=
  match b with
  | market_connection_lost => Some (Error "listener failed")
  | market_tick _ => None
  end.

End Faulty.

(** The listeners [src/test-finnhub.ts] registers on the bus before it
    starts the service (lines 43-61 and 67-71). *)
Module TestFinnhub.

(** The 'market:tick' listener prints [tick.price.toFixed(2)]: a
    [TypeError] unless the price is a number. *)
Definition on_market_tick (tick : MarketTick) : option Exception :=
  match price tick with
  | Some (JNumber _) => None
  | _ => Some TypeError
  end.

(** The 'market:connection-lost' listener prints a line. *)
Definition listeners (b : BusEvent) : option Exception :=
  match b with
  | market_tick tick => on_market_tick tick
  | market_connection_lost => None
  end.

(** [{"type":"trade","data":[{"s":"AAPL","v":100,"t":1635782400000},
     {"s":"MSFT","p":310.5,"v":50,"t":1635782400001}]}]: two entries,
    the first without its price. *)
Definition unpriced : JSON :=
  JObject [("s", JString "AAPL"); ("v", JNumber 100%float);
           ("t", JNumber 1635782400000%float)].

Definition msft : Trade :=
  {| trade_s := "MSFT"; trade_p := 310.5%float; trade_v := 50%float;
     trade_t := 1635782400001%float; trade_c := [] |}.

Definition unpriced_text : string :=
  ("{" ++ Sample.quoted "type" ++ ":" ++ Sample.quoted "trade" ++ ","
     ++ Sample.quoted "data" ++ ":[{"
     ++ Sample.quoted "s" ++ ":" ++ Sample.quoted "AAPL" ++ ","
     ++ Sample.quoted "v" ++ ":100," ++ Sample.quoted "t" ++ ":1635782400000},{"
     ++ Sample.quoted "s" ++ ":" ++ Sample.quoted "MSFT" ++ ","
     ++ Sample.quoted "p" ++ ":310.5," ++ Sample.quoted "v" ++ ":50,"
     ++ Sample.quoted "t" ++ ":1635782400001," ++ Sample.quoted "c" ++ ":[]}]}")%string.

Definition unpriced_value : JSON :=
  JObject [("type", JString "trade"); ("data", JArray [unpriced; trade_json msft])].

Definition JSON_parse (data : string) : option JSON :=
  if String.eqb data unpriced_text then Some unpriced_value
  else Sample.JSON_parse data.

End TestFinnhub.

(* ===================================================================== *)
(** * The logger *)
(* ===================================================================== *)

(** [utils/logger.ts].  A logger holds its context and the level read
    from the environment when it is constructed; a message is printed
    when [shouldLog] answers true for its level. *)
Module Logger.

Record Logger : Type := { context : string; logLevel : string }.

(** [process.env.LOG_LEVEL || 'info']: unset and empty both give
    ['info']. *)
Definition new_Logger (LOG_LEVEL : option string) (ctx : string) : Logger :=
  {| context := ctx;
     logLevel := match LOG_LEVEL with
                 | Some l => if String.eqb l "" then "info" else l
                 | None => "info"
                 end |}.

Definition levels : list string := ["debug"; "info"; "warn"; "error"].

(** [Array.prototype.indexOf]: the first index holding [x], or -1. *)
Fixpoint indexOf (x : string) (l : list string) : Z :=
  match l with
  | [] => (-1)%Z
  | y :: rest =>
      if String.eqb y x then 0%Z
      else let i := indexOf x rest in
           if (i <? 0)%Z then (-1)%Z else (i + 1)%Z
  end.

(** shouldLog (lines 13-18). *)
Definition shouldLog (lg : Logger) (level : string) : bool :=
  let currentLevelIndex := indexOf (logLevel lg) levels in
  let messageLevelIndex := indexOf level levels in
  (messageLevelIndex >=? currentLevelIndex)%Z.

End Logger.

(* ===================================================================== *)
(** * Reading the configuration *)
(* ===================================================================== *)

(** The helpers of [config/index.ts].  [process.env] is a partial map
    from names to strings. *)
Module Config.

Definition Env : Type := string -> option string.

(** getEnvVar (lines 18-24): an empty value counts as missing. *)
Definition getEnvVar (env : Env) (key : string) : Exception + string :=
  match env key with
  | Some value =>
      if String.eqb value ""
      then inl (Error ("Missing required environment variable: " ++ key)%string)
      else inr value
  | None => inl (Error ("Missing required environment variable: " ++ key)%string)
  end.

(** getEnvVarOrDefault (lines 29-31): [process.env[key] || defaultValue]. *)
Definition getEnvVarOrDefault (env : Env) (key defaultValue : string) : string :=
  match env key with
  | Some value => if String.eqb value "" then defaultValue else value
  | None => defaultValue
  end.

Definition comma : Ascii.ascii := Ascii.Ascii false false true true false true false false.

(** [value.split(',')]. *)
Fixpoint split (value : string) : list string :=
  match value with
  | EmptyString => [EmptyString]
  | String c rest =>
      if Ascii.eqb c comma then EmptyString :: split rest
      else match split rest with
           | piece :: pieces => String c piece :: pieces
           | [] => [String c EmptyString]
           end
  end.

(** [Boolean(s)] for a string. *)
Definition nonempty (s : string) : bool := negb (String.eqb s "").

Section ParseArray.

(** [String.prototype.trim], the library function. *)
Variable trim : string -> string.

(** parseArray (lines 10-13). *)
Definition parseArray (value : option string) (defaultValue : list string) : list string :=
  match value with
  | None => defaultValue
  | Some v =>
      if String.eqb v "" then defaultValue
      else filter nonempty (map trim (split v))
  end.

End ParseArray.

(** The string holds a comma. *)
Fixpoint has_comma (s : string) : bool :=
  match s with
  | EmptyString => false
  | String c rest => Ascii.eqb c comma || has_comma rest
  end.

(** An entry that survives [parseArray] unchanged. *)
Definition plain (trim : string -> string) (x : string) : Prop :=
  x <> ""%string /\ has_comma x = false /\ trim x = x.

End Config.

(* ===================================================================== *)
(** * The notification queue *)
(* ===================================================================== *)

(** The message queue of [services/NotificationService.ts]: the
    listener of 'market:connection-lost' and of the trading events puts a
    message in the queue, and one asynchronous loop takes the messages out
    and mails them.  The loop is modelled by its segments between two
    [await]s; [suspended] says at which [await] the loop in flight, if
    any, is waiting.  The queue does not look into a message, so its type
    is left open. *)
Module Notifier.

Inductive Await : Type :=
| AwaitSend      (* await this.sendEmail(message) *)
| AwaitDelay.    (* await new Promise(resolve => setTimeout(resolve, 1000)) *)

Section Queue.

Variable Message : Type.

Record State : Type := mkState {
  running : bool;
  messageQueue : list Message;
  processing : bool;
  suspended : option Await
}.

Inductive Effect : Type :=
| Log (level : LogLevel) (message : string)
| SendEmail (m : Message)                 (* this.sendEmail(m) *)
| Sleep (ms : N)                          (* setTimeout(resolve, ms) *)
| On (event : string)                     (* eventBus.on(event, ...) *)
| RemoveAllListeners (event : string).    (* eventBus.removeAllListeners(event) *)

(** [new NotificationService(config)]. *)
Definition new_NotificationService : State :=
  {| running := false; messageQueue := []; processing := false; suspended := None |}.

(** sendEmail (lines 227-247): the mail itself is not implemented yet;
    the call logs twice and cannot throw. *)
Definition sendEmail (m : Message) : list Effect :=
  [SendEmail m; Log info "Sending email notification"; Log debug "Email placeholder sent"].

(** The [while] of processQueue (lines 213-222), from its test to the
    next [await] or to the end of the function. *)
Definition loop (st : State) : State * list Effect :=
  match messageQueue st, running st with
  | m :: rest, true =>
      (mkState (running st) rest (processing st) (Some AwaitSend), sendEmail m)
  | _, _ =>
      (mkState (running st) (messageQueue st) false None, [])
  end.

(** processQueue (lines 206-224), up to its first [await]. *)
Definition processQueue (st : State) : State * list Effect :=
  if processing st || (List.length (messageQueue st) =? 0)%nat then (st, [])
  else loop (mkState (running st) (messageQueue st) true (suspended st)).

(** The loop in flight goes on: after the mail it starts the one second
    delay, after the delay it tests again. *)
Definition resume (st : State) : State * list Effect :=
  match suspended st with
  | Some AwaitSend =>
      (mkState (running st) (messageQueue st) (processing st) (Some AwaitDelay), [Sleep 1000])
  | Some AwaitDelay => loop st
  | None => (st, [])
  end.

(** queueMessage (lines 193-201). *)
Definition queueMessage (m : Message) (st : State) : State * list Effect :=
  let st1 := mkState (running st) (messageQueue st ++ [m]) (processing st) (suspended st) in
  if negb (processing st1) then
    let (st2, effs) := processQueue st1 in (st2, Log debug "Message queued" :: effs)
  else (st1, [Log debug "Message queued"]).

(** start (lines 23-39). *)
Definition start (st : State) : State * list Effect :=
  if running st then (st, [Log warn "Service already running"])
  else
    (mkState true (messageQueue st) (processing st) (suspended st),
     [Log info "Starting notification service";
      Log info "Email transporter placeholder initialized";
      On "trading:signal"; On "trading:executed"; On "trading:execution-failed";
      On "market:connection-lost"; On "news:article";
      Log info "Notification service started"]).

(** stop (lines 41-58).  [running] is cleared before the queue is
    looked at. *)
Definition stop (st : State) : State * list Effect :=
  if negb (running st) then (st, [Log warn "Service not running"])
  else
    let st1 := mkState false (messageQueue st) (processing st) (suspended st) in
    let (st2, effs) :=
      if (0 <? List.length (messageQueue st1))%nat then
        let (st2, effs) := processQueue st1 in
        (st2, Log info ("Processing "
                        ++ number_to_string (N.of_nat (List.length (messageQueue st1)))
                        ++ " remaining messages")%string :: effs)
      else (st1, []) in
    (st2, Log info "Stopping notification service" :: effs
          ++ [RemoveAllListeners "trading:signal"; RemoveAllListeners "trading:executed";
              RemoveAllListeners "trading:execution-failed";
              RemoveAllListeners "market:connection-lost";
              Log info "Notification service stopped"]).

(** isRunning (lines 60-62). *)
Definition isRunning (st : State) : bool := running st.

(** What can happen to the service. *)
Inductive Event : Type :=
| Call_start
| Call_stop
| Queue (m : Message)
| Resume.

Definition dispatch (e : Event) (st : State) : State * list Effect :=
  match e with
  | Call_start => start st
  | Call_stop => stop st
  | Queue m => queueMessage m st
  | Resume => resume st
  end.

Fixpoint run (events : list Event) (st : State) : State * list Effect :=
  match events with
  | [] => (st, [])
  | e :: rest =>
      let (st1, effs1) := dispatch e st in
      let (st2, effs2) := run rest st1 in
      (st2, effs1 ++ effs2)
  end.

(** The messages handed to [sendEmail], in order. *)
Definition mailed (effs : list Effect) : list Message :=
  flat_map (fun e => match e with SendEmail m => [m] | _ => [] end) effs.

(** The messages put in the queue by a run of events, in order. *)
Definition queued (events : list Event) : list Message :=
  flat_map (fun e => match e with Queue m => [m] | _ => [] end) events.

(** The mails and the delays of a record, in order. *)
Definition pace (effs : list Effect) : list bool :=
  flat_map (fun e => match e with
                     | SendEmail _ => [true]
                     | Sleep _ => [false]
                     | _ => []
                     end) effs.

(** A record of mails and delays in which they alternate; [mail_next]
    says whether a mail or a delay may come first. *)
Fixpoint alternates (mail_next : bool) (p : list bool) : bool :=
  match p with
  | [] => true
  | b :: rest => Bool.eqb b mail_next && alternates (negb mail_next) rest
  end.

(** A mail may come next unless the loop waits at the [await] of a mail. *)
Definition mail_next (st : State) : bool :=
  match suspended st with
  | Some AwaitSend => false
  | _ => true
  end.

Definition has_start (events : list Event) : bool :=
  existsb (fun e => match e with Call_start => true | _ => false end) events.

(** The loop in flight holds the flag, and only it. *)
Definition coherent (st : State) : Prop :=
  processing st = true <-> suspended st <> None.

End Queue.

End Notifier.

(* ===================================================================== *)
(** * The monad, by projections *)
(* ===================================================================== *)

Lemma bind_unfold {A B} (m : M A) (k : A -> M B) s :
  bind m k s =
    match completion (m s) with
    | Normal a =>
        mkOutcome (completion (k a (state (m s)))) (state (k a (state (m s))))
                  (effects (m s) ++ effects (k a (state (m s))))
    | Throw e => mkOutcome (Throw e) (state (m s)) (effects (m s))
    end.
Proof.
  unfold bind. destruct (m s) as [[a | e] s1 effs1]; cbn; [| reflexivity].
  now destruct (k a s1).
Qed.

Lemma try_catch_unfold {A} (body : M A) (handler : Exception -> M A) s :
  try_catch body handler s =
    match completion (body s) with
    | Normal a => body s
    | Throw e =>
        mkOutcome (completion (handler e (state (body s))))
                  (state (handler e (state (body s))))
                  (effects (body s) ++ effects (handler e (state (body s))))
    end.
Proof.
  unfold try_catch. destruct (body s) as [[a | e] s1 effs1]; cbn; [reflexivity |].
  now destruct (handler e s1).
Qed.

(* ===================================================================== *)
(** * Facts about [Set<string>] *)
(* ===================================================================== *)

Ltac break_service s :=
  let k := fresh "key" in let u := fresh "url" in let w := fresh "sock" in
  let r := fresh "on" in let n := fresh "attempts" in let l := fresh "syms" in
  let p := fresh "ping" in let c := fresh "tmo" in
  destruct s as [k u w r n l p c]; cbn [apiKey wsUrl ws running reconnectAttempts
    subscribedSymbols pingInterval connectionTimeout] in *.

(** Reduce the field updates of a service to one record. *)
Ltac fields :=
  unfold set_ws, set_running, set_reconnectAttempts, set_subscribedSymbols,
    set_pingInterval, set_connectionTimeout in *;
  cbn [apiKey wsUrl ws running reconnectAttempts subscribedSymbols pingInterval
       connectionTimeout] in *.

Lemma has_true_iff x l : has x l = true <-> In x l.
Proof.
  unfold has. rewrite existsb_exists. split.
  - intros [y [Hy Heq]]. apply String.eqb_eq in Heq. now subst.
  - intros H. exists x. split; [assumption | apply String.eqb_refl].
Qed.

Lemma has_false_iff x l : has x l = false <-> ~ In x l.
Proof.
  rewrite <- has_true_iff. destruct (has x l); split; congruence.
Qed.

Lemma add_In x l : In x (add x l).
Proof.
  unfold add. destruct (has x l) eqn:E.
  - now apply has_true_iff.
  - apply in_or_app. right. now left.
Qed.

Lemma add_In_iff x y l : In y (add x l) <-> y = x \/ In y l.
Proof.
  unfold add. destruct (has x l) eqn:E.
  - apply has_true_iff in E. split; [now right | intros [-> | H]; assumption].
  - rewrite in_app_iff. cbn. intuition congruence.
Qed.

Lemma add_NoDup x l : NoDup l -> NoDup (add x l).
Proof.
  intros H. unfold add. destruct (has x l) eqn:E; [assumption |].
  apply has_false_iff in E.
  apply NoDup_app; [assumption | constructor; [intros [] | constructor] |].
  intros y Hy [<- | []]. contradiction.
Qed.

Lemma delete_NoDup x l : NoDup l -> NoDup (delete x l).
Proof. intros H. unfold delete. now apply NoDup_filter. Qed.

Lemma delete_In_iff x y l : In y (delete x l) <-> In y l /\ y <> x.
Proof.
  unfold delete. rewrite filter_In. split; intros [H1 H2]; split; try assumption.
  - intros ->. now rewrite String.eqb_refl in H2.
  - destruct (String.eqb_spec x y); [subst; contradiction | reflexivity].
Qed.


Lemma add_count_occ x l :
  NoDup l -> count_occ string_dec (add x l) x = 1%nat.
Proof.
  intros H. apply (proj1 (NoDup_count_occ' string_dec _)); [| apply add_In].
  now apply add_NoDup.
Qed.

(** Adding the elements of a duplicate-free list, one by one and in
    order, to a set that holds none of them rebuilds the list. *)
Lemma fold_add_fresh xs : forall acc,
  NoDup (acc ++ xs) -> fold_left (fun l x => add x l) xs acc = acc ++ xs.
Proof.
  induction xs as [| x xs IH]; intros acc H; cbn.
  - now rewrite app_nil_r.
  - assert (Hx : has x acc = false).
    { apply has_false_iff. intros Hin. apply NoDup_remove_2 in H.
      apply H. apply in_or_app. now left. }
    unfold add at 2. rewrite Hx.
    rewrite IH; rewrite <- app_assoc; [reflexivity | exact H].
Qed.


(* ===================================================================== *)
(** * subscribe, unsubscribe and start *)
(* ===================================================================== *)

(** What one call of [subscribe] does, by the three paths of its body. *)
Lemma subscribe_idle sym s :
  running s && has_socket s = false ->
  subscribe sym s =
    mkOutcome (Normal tt) s [Log error "Cannot subscribe - service not running"].
Proof.
  unfold has_socket. break_service s. intros H.
  destruct on, sock; try discriminate; reflexivity.
Qed.


Lemma subscribe_open sym s :
  running s = true -> ws_is_open s = true ->
  subscribe sym s =
    mkOutcome (Normal tt) (with_symbols (add sym) s)
              [Log info ("Subscribing to " ++ sym)%string;
               WsSend (frame "subscribe" sym);
               Log debug "Sent subscribe message"].
Proof.
  unfold ws_is_open. break_service s. intros -> H.
  destruct sock as [w |]; [| discriminate].
  unfold subscribe, bind, this. cbn. rewrite H. reflexivity.
Qed.

Lemma unsubscribe_symbols sym s :
  subscribedSymbols (state (unsubscribe sym s)) =
    if running s && has_socket s then delete sym (subscribedSymbols s)
    else subscribedSymbols s.
Proof.
  unfold has_socket. break_service s.
  destruct on, sock as [[rs] |]; try reflexivity.
  destruct rs; reflexivity.
Qed.

Lemma subscribe_symbols sym s :
  subscribedSymbols (state (subscribe sym s)) =
    if running s && has_socket s then add sym (subscribedSymbols s)
    else subscribedSymbols s.
Proof.
  unfold has_socket. break_service s.
  destruct on, sock as [[rs] |]; try reflexivity.
  destruct rs; reflexivity.
Qed.

(** C2, as stated, fails: on a service that was never started
    [subscribe("AAPL")] returns at its guard and the set stays empty. *)
Lemma subscribe_not_running_counterexample :
  ~ In "AAPL" (getSubscribedSymbols (state (subscribe "AAPL" Sample.fresh))).
Proof. cbn. intros []. Qed.

(** C2 (amended): [subscribe(symbol)] adds the symbol to the set exactly
    when the service is running and holds a socket, open or not; in every
    other state the set is left as it was and nothing is queued. *)
Theorem subscribe_adds_when_running sym s :
  if running s && has_socket s
  then In sym (getSubscribedSymbols (state (subscribe sym s)))
  else getSubscribedSymbols (state (subscribe sym s)) = getSubscribedSymbols s.
Proof.
  unfold getSubscribedSymbols, array_from. rewrite subscribe_symbols.
  destruct (running s && has_socket s); [apply add_In | reflexivity].
Qed.

(** C3, as stated, fails: two calls on an open connection send two
    subscribe frames for AAPL, not one. *)
Lemma subscribe_twice_counterexample :
  let r := (subscribe "AAPL" ;; subscribe "AAPL")%js Sample.open in
  ws_is_open Sample.open = true /\
  count_occ string_dec (getSubscribedSymbols (state r)) "AAPL" = 1%nat /\
  List.length (sent (effects r)) <> 1%nat.
Proof. cbn. repeat split. discriminate. Qed.

(** C3 (amended): while the connection is open, two calls of
    [subscribe(symbol)] in a row send two subscribe frames for the symbol,
    one per call, and the list of subscribed symbols holds it once. *)
Theorem subscribe_twice_open sym s :
  running s = true -> ws_is_open s = true -> NoDup (subscribedSymbols s) ->
  let r := (subscribe sym ;; subscribe sym)%js s in
  completion r = Normal tt /\
  sent (effects r) = [frame "subscribe" sym; frame "subscribe" sym] /\
  count_occ string_dec (getSubscribedSymbols (state r)) sym = 1%nat.
Proof.
  intros Hrun Hopen Hnd r. subst r. unfold bind.
  rewrite (subscribe_open sym s Hrun Hopen). cbn [completion state effects].
  rewrite subscribe_open by (break_service s; assumption).
  cbn [completion state effects]. repeat split.
  unfold getSubscribedSymbols, array_from, with_symbols. break_service s.
  apply add_count_occ. now apply add_NoDup.
Qed.

Lemma subscribe_twice_open_witness :
  let r := (subscribe "AAPL" ;; subscribe "AAPL")%js Sample.open in
  completion r = Normal tt /\
  sent (effects r) = [frame "subscribe" "AAPL"; frame "subscribe" "AAPL"] /\
  count_occ string_dec (getSubscribedSymbols (state r)) "AAPL" = 1%nat.
Proof.
  apply (subscribe_twice_open "AAPL" Sample.open);
    [reflexivity | reflexivity | constructor].
Defined.

Section Start.

Variable WebSocket_new : string -> option Exception.

(** C4, as stated, fails: [start()] on a running service hands back a
    fulfilled promise; no error reaches the caller. *)
Lemma start_running_counterexample :
  running Sample.open = true /\
  ~ exists e, completion (start Sample.WebSocket_new Sample.open) = Throw e \/
              completion (start Sample.WebSocket_new Sample.open) = Normal (Rejected e).
Proof. split; [reflexivity |]. cbn. intros [e [H | H]]; discriminate. Qed.

(** C4 (amended): [start()] on a service that is already running logs a
    warning and returns normally, its promise fulfilled; it raises no
    error, changes no field and opens no socket. *)
Theorem start_already_running s :
  running s = true ->
  start WebSocket_new s =
    mkOutcome (Normal Fulfilled) s [Log warn "Service already running"].
Proof. break_service s. intros ->. reflexivity. Qed.

End Start.

Lemma start_already_running_witness :
  start Sample.WebSocket_new Sample.open =
    mkOutcome (Normal Fulfilled) Sample.open [Log warn "Service already running"].
Proof. apply (start_already_running Sample.WebSocket_new Sample.open). reflexivity. Defined.

(* ===================================================================== *)
(** * Decoding inbound frames *)
(* ===================================================================== *)

Arguments strict_eq_string : simpl never.
Arguments truthy : simpl never.

Section Publish.

Variable listeners : BusEvent -> option Exception.

Local Abbreviation publish' := (publish listeners).

(** What the arrow function does with one entry: [null] throws at the
    first property read; any other entry has its tick logged and
    emitted, and the exception of a listener, if any, leaves with it. *)
Lemma publish_unfold entry s :
  publish' entry s =
    match entry with
    | JNull => mkOutcome (Throw TypeError) s []
    | _ =>
        mkOutcome
          (match listeners (market_tick (tick_of_entry entry)) with
           | Some e => Throw e
           | None => Normal tt
           end) s
          [Log debug "Market tick"; Emit (market_tick (tick_of_entry entry))]
    end.
Proof.
  destruct entry; try reflexivity;
    unfold publish, emit, bind; cbn;
    match goal with |- context [listeners ?b] => destruct (listeners b) end; reflexivity.
Qed.

Lemma publish_entry entry s :
  entry <> JNull -> listeners (market_tick (tick_of_entry entry)) = None ->
  publish' entry s =
    mkOutcome (Normal tt) s
              [Log debug "Market tick"; Emit (market_tick (tick_of_entry entry))].
Proof.
  intros H L. rewrite publish_unfold, L. destruct entry; try reflexivity. contradiction.
Qed.

Lemma publish_thrown entry s e :
  entry <> JNull -> listeners (market_tick (tick_of_entry entry)) = Some e ->
  publish' entry s =
    mkOutcome (Throw e) s
              [Log debug "Market tick"; Emit (market_tick (tick_of_entry entry))].
Proof.
  intros H L. rewrite publish_unfold, L. destruct entry; try reflexivity. contradiction.
Qed.

Lemma publish_state entry s : state (publish' entry s) = s.
Proof. rewrite publish_unfold. destruct entry; reflexivity. Qed.

Lemma publish_all_state entries : forall s, state (forEach publish' entries s) = s.
Proof.
  induction entries as [| e es IH]; intros s; [reflexivity |].
  cbn [forEach]. rewrite bind_unfold. pose proof (publish_state e s) as He.
  destruct (completion (publish' e s)); cbn [state]; [| exact He].
  rewrite He. apply IH.
Qed.

Lemma publish_all entries : forall s,
  Forall (fun e => e <> JNull) entries ->
  Forall (fun e => listeners (market_tick (tick_of_entry e)) = None) entries ->
  forEach publish' entries s =
    mkOutcome (Normal tt) s
      (flat_map (fun e => [Log debug "Market tick"; Emit (market_tick (tick_of_entry e))])
                entries).
Proof.
  induction entries as [| e es IH]; intros s H L; [reflexivity |].
  inversion H as [| ? ? He Hes]; subst. inversion L as [| ? ? Le Les]; subst.
  cbn [forEach flat_map]. unfold bind. rewrite (publish_entry s He Le).
  rewrite (IH s Hes Les). reflexivity.
Qed.

End Publish.

Lemma ticks_of_published entries :
  ticks (flat_map (fun e => [Log debug "Market tick"; Emit (market_tick (tick_of_entry e))])
                  entries) = map tick_of_entry entries.
Proof.
  unfold ticks, emitted. induction entries as [| e es IH]; [reflexivity |].
  cbn. f_equal. exact IH.
Qed.


Lemma tick_of_entry_trade x : tick_of_entry (trade_json x) = tick_of_trade x.
Proof. reflexivity. Qed.

Lemma trade_json_not_null batch : Forall (fun e => e <> JNull) (map trade_json batch).
Proof. apply Forall_forall. intros e He. apply in_map_iff in He as [x [<- _]]. discriminate. Qed.

Section Decode.

Variable JSON_parse : string -> option JSON.
Variable listeners : BusEvent -> option Exception.

Local Abbreviation publish' := (publish listeners).

(** [handleMessage] never throws and never assigns a field, whatever
    the frame. *)
Lemma handleMessage_contained data s :
  completion (handleMessage JSON_parse listeners data s) = Normal tt /\
  state (handleMessage JSON_parse listeners data s) = s.
Proof.
  unfold handleMessage, try_catch, parse, bind.
  destruct (JSON_parse data) as [message |]; [| split; reflexivity].
  destruct message as [| b | n | str | items | fields]; try (split; reflexivity).
  cbn. destruct (lookup "type" fields) as [type |]; [| split; reflexivity].
  cbn. destruct (strict_eq_string (Some type) "ping"); [split; reflexivity |].
  destruct (strict_eq_string (Some type) "trade"); [| split; reflexivity].
  cbn. destruct (truthy (lookup "data" fields)); [| split; reflexivity].
  cbn. destruct (lookup "data" fields) as [[| b | n | str | items | fs] |];
    try (split; reflexivity).
  cbn -[forEach publish]. pose proof (publish_all_state listeners items s) as Hs.
  destruct (forEach publish' items s) as [[[] | e] s' effs]; cbn in Hs |- *;
    subst s'; split; reflexivity.
Qed.

(** What the decoder does with a trade batch none of whose entries is
    [null], when no listener throws on any of its ticks. *)
Lemma handleMessage_trade data s fields entries :
  JSON_parse data = Some (JObject fields) ->
  lookup "type" fields = Some (JString "trade") ->
  lookup "data" fields = Some (JArray entries) ->
  Forall (fun e => e <> JNull) entries ->
  Forall (fun e => listeners (market_tick (tick_of_entry e)) = None) entries ->
  handleMessage JSON_parse listeners data s =
    mkOutcome (Normal tt) s
      (Log debug "Received trade data"
         :: flat_map (fun e => [Log debug "Market tick"; Emit (market_tick (tick_of_entry e))])
                     entries).
Proof.
  intros Hparse Htype Hdata Hentries Hquiet.
  unfold handleMessage, try_catch, parse, bind. rewrite Hparse.
  cbn -[forEach publish]. rewrite Htype, Hdata.
  change (strict_eq_string (Some (JString "trade")) "ping") with false.
  change (strict_eq_string (Some (JString "trade")) "trade") with true.
  change (truthy (Some (JArray entries))) with true.
  cbn -[forEach publish].
  rewrite (publish_all listeners s Hentries Hquiet). reflexivity.
Qed.


(** The same for a batch of well-typed entries: the tick carries the
    symbol, price, volume and timestamp of the trade. *)
Corollary typed_trade_batch_ticks data s batch :
  JSON_parse data = Some (trade_message batch) ->
  Forall (fun x => listeners (market_tick (tick_of_trade x)) = None) batch ->
  ticks (effects (handleMessage JSON_parse listeners data s)) = map tick_of_trade batch.
Proof.
  intros Hparse Hquiet.
  assert (Hq : Forall (fun e => listeners (market_tick (tick_of_entry e)) = None)
                      (map trade_json batch)).
  { apply Forall_forall. intros e He. apply in_map_iff in He as [x [<- Hx]].
    rewrite tick_of_entry_trade. rewrite Forall_forall in Hquiet. now apply Hquiet. }
  rewrite (@handleMessage_trade data s _ (map trade_json batch) Hparse
             eq_refl eq_refl (trade_json_not_null batch) Hq).
  cbn [effects].
  change (ticks (Log debug "Received trade data" :: ?l)) with (ticks l).
  rewrite ticks_of_published, map_map. apply map_ext. intros x. apply tick_of_entry_trade.
Qed.

(** C8: a frame that is a ping, carries a type other than 'trade', or is
    not JSON at all makes the decoder publish nothing - no tick, no other
    event - and do nothing but log; no exception reaches the caller and
    no field of the service, the socket included, changes. *)
Theorem dropped_frame_is_silent data s :
  dropped JSON_parse data = true ->
  let r := handleMessage JSON_parse listeners data s in
  completion r = Normal tt /\ state r = s /\
  ticks (effects r) = [] /\ emitted (effects r) = [] /\ actions (effects r) = [].
Proof.
  intros H r. subst r. unfold dropped in H.
  unfold handleMessage, try_catch, parse, bind.
  destruct (JSON_parse data) as [message |]; [| repeat split].
  unfold is_ping, is_trade in H.
  destruct message as [| b | n | str | items | fields]; try (repeat split; fail).
  cbn in H |- *. destruct (lookup "type" fields) as [type |]; [| repeat split].
  cbn. destruct (strict_eq_string (Some type) "ping") eqn:Hping; [repeat split |].
  cbn in H. destruct (strict_eq_string (Some type) "trade"); [discriminate |].
  repeat split.
Qed.

End Decode.



Lemma dropped_frame_is_silent_witness :
  let r := handleMessage Sample.JSON_parse Sample.listeners Sample.ping_text Sample.open in
  completion r = Normal tt /\ state r = Sample.open /\
  ticks (effects r) = [] /\ emitted (effects r) = [] /\ actions (effects r) = [].
Proof.
  apply (@dropped_frame_is_silent Sample.JSON_parse Sample.listeners
           Sample.ping_text Sample.open).
  reflexivity.
Defined.

(** The three kinds of dropped frame, and a batch torn by a [null] entry
    (one tick goes out before the decoder gives up on the frame). *)
Example dropped_kinds :
  dropped Sample.JSON_parse Sample.ping_text = true /\
  dropped Sample.JSON_parse Sample.news_text = true /\
  dropped Sample.JSON_parse "not json" = true /\
  dropped Sample.JSON_parse Sample.trade_text = false.
Proof. repeat split. Qed.

Example torn_batch :
  let r := handleMessage Sample.JSON_parse Sample.listeners Sample.torn_text Sample.open in
  completion r = Normal tt /\ List.length (ticks (effects r)) = 1%nat.
Proof. split; reflexivity. Qed.

(* ===================================================================== *)
(** * Replay of the subscription set *)
(* ===================================================================== *)

(** Sequencing after a computation whose outcome is known. *)
Lemma bind_normal {A B} (m : M A) (k : A -> M B) s a s' effs :
  m s = mkOutcome (Normal a) s' effs ->
  bind m k s = mkOutcome (completion (k a s')) (state (k a s')) (effs ++ effects (k a s')).
Proof. intros H. unfold bind. rewrite H. now destruct (k a s'). Qed.

Lemma with_symbols_id s : with_symbols (fun l => l) s = s.
Proof. now destruct s. Qed.

Lemma with_symbols_compose f g s :
  with_symbols f (with_symbols g s) = with_symbols (fun l => f (g l)) s.
Proof. now destruct s. Qed.

Lemma with_symbols_ext f g s :
  f (subscribedSymbols s) = g (subscribedSymbols s) -> with_symbols f s = with_symbols g s.
Proof. unfold with_symbols. now intros ->. Qed.

Lemma sent_subscribe_lines xs :
  sent (flat_map subscribe_lines xs) = map (frame "subscribe") xs.
Proof.
  unfold sent. induction xs as [| x xs IH]; [reflexivity |].
  cbn. f_equal. exact IH.
Qed.

(** [symbols.forEach(symbol => this.subscribe(symbol))] on an open socket:
    every symbol is added back and sent, in order. *)
Lemma forEach_subscribe_open xs : forall s,
  running s = true -> ws_is_open s = true ->
  forEach subscribe xs s =
    mkOutcome (Normal tt)
              (with_symbols (fun l => fold_left (fun l x => add x l) xs l) s)
              (flat_map subscribe_lines xs).
Proof.
  induction xs as [| x xs IH]; intros s Hrun Hopen.
  - cbn. now rewrite with_symbols_id.
  - cbn [forEach]. rewrite bind_normal with (1 := subscribe_open x s Hrun Hopen).
    rewrite IH by (break_service s; assumption).
    cbn [completion state effects]. rewrite with_symbols_compose. reflexivity.
Qed.

(** In whatever state, the loop ends normally and assigns nothing but
    the set. *)
Lemma subscribe_frame_rule sym s :
  completion (subscribe sym s) = Normal tt /\
  exists l, state (subscribe sym s) = set_subscribedSymbols l s.
Proof.
  break_service s. destruct on, sock as [[rs] |];
    try (split; [reflexivity | eexists; reflexivity]).
  destruct rs; split; try reflexivity; eexists; reflexivity.
Qed.

Lemma unsubscribe_frame_rule sym s :
  completion (unsubscribe sym s) = Normal tt /\
  exists l, state (unsubscribe sym s) = set_subscribedSymbols l s.
Proof.
  break_service s. destruct on, sock as [[rs] |];
    try (split; [reflexivity | eexists; reflexivity]).
  destruct rs; split; try reflexivity; eexists; reflexivity.
Qed.

Lemma forEach_subscribe_frame_rule xs : forall s,
  completion (forEach subscribe xs s) = Normal tt /\
  exists l, state (forEach subscribe xs s) = set_subscribedSymbols l s.
Proof.
  induction xs as [| x xs IH]; intros s.
  - split; [reflexivity |]. exists (subscribedSymbols s). now destruct s.
  - cbn [forEach]. rewrite bind_unfold.
    destruct (subscribe_frame_rule x s) as [Hc [l Hl]]. rewrite Hc.
    cbn [completion state]. destruct (IH (state (subscribe x s))) as [Hc' [l' Hl']].
    split; [exact Hc' |]. exists l'. rewrite Hl', Hl. now destruct s.
Qed.

Lemma sent_replay_lines xs : sent (replay_lines xs) = map (frame "subscribe") xs.
Proof.
  unfold replay_lines. destruct xs as [| x xs]; [reflexivity |].
  change (size (x :: xs) =? 0) with (N.of_nat (S (List.length xs)) =? 0).
  destruct (N.eqb_spec (N.of_nat (S (List.length xs))) 0) as [E | _]; [lia |].
  apply (sent_subscribe_lines (x :: xs)).
Qed.

Lemma resubscribeAll_open s :
  running s = true -> ws_is_open s = true -> NoDup (subscribedSymbols s) ->
  resubscribeAll s = mkOutcome (Normal tt) s (replay_lines (subscribedSymbols s)).
Proof.
  intros Hrun Hopen Hnd. unfold resubscribeAll, replay_lines, bind, this.
  cbn [completion state effects].
  destruct (size (subscribedSymbols s) =? 0) eqn:E; [reflexivity |].
  cbn [logger call assign completion state effects array_from].
  rewrite forEach_subscribe_open by (break_service s; assumption).
  cbn [completion state effects]. f_equal.
  unfold with_symbols, set_subscribedSymbols, clear, array_from. break_service s.
  now rewrite (fold_add_fresh syms []).
Qed.

Lemma resubscribeAll_frame_rule s :
  completion (resubscribeAll s) = Normal tt /\
  exists l, state (resubscribeAll s) = set_subscribedSymbols l s.
Proof.
  unfold resubscribeAll, bind, this. cbn [completion state effects].
  destruct (size (subscribedSymbols s) =? 0).
  - split; [reflexivity |]. exists (subscribedSymbols s). now destruct s.
  - cbn [logger call assign completion state effects]. unfold array_from.
    destruct (forEach_subscribe_frame_rule (subscribedSymbols s)
                (set_subscribedSymbols (clear (subscribedSymbols s)) s)) as [Hc [l Hl]].
    destruct (forEach subscribe _ _) as [c s' effs]. cbn in Hc, Hl |- *. subst c s'.
    split; [reflexivity |]. exists l. now destruct s.
Qed.

(** The set after the loop of the replay, in whatever state: every
    symbol is added when the service runs and holds a socket, open or
    not, and none is otherwise. *)
Lemma forEach_subscribe_symbols xs : forall s,
  subscribedSymbols (state (forEach subscribe xs s)) =
    if running s && has_socket s
    then fold_left (fun l x => add x l) xs (subscribedSymbols s)
    else subscribedSymbols s.
Proof.
  induction xs as [| x xs IH]; intros s.
  - cbn. now destruct (running s && has_socket s).
  - cbn [forEach fold_left]. rewrite bind_unfold.
    destruct (subscribe_frame_rule x s) as [Hc [l Hl]]. rewrite Hc. cbn [state].
    rewrite IH, subscribe_symbols.
    assert (Hkeep : running (state (subscribe x s)) && has_socket (state (subscribe x s)) =
                    running s && has_socket s).
    { rewrite Hl. unfold has_socket. now destruct s. }
    rewrite Hkeep. now destruct (running s && has_socket s).
Qed.

(** The set after the replay: what it was when the service runs and
    holds a socket; empty otherwise. *)
Lemma resubscribeAll_symbols s :
  NoDup (subscribedSymbols s) ->
  subscribedSymbols (state (resubscribeAll s)) =
    if running s && has_socket s then subscribedSymbols s else [].
Proof.
  intros Hnd. unfold resubscribeAll, bind, this. cbn [completion state effects].
  destruct (size (subscribedSymbols s) =? 0) eqn:E.
  - cbn [logger call state]. apply N.eqb_eq in E. unfold size in E.
    destruct (subscribedSymbols s); [| cbn in E; lia].
    now destruct (running s && has_socket s).
  - cbn [logger call assign completion state effects array_from].
    pose proof (forEach_subscribe_symbols (subscribedSymbols s)
                  (set_subscribedSymbols (clear (subscribedSymbols s)) s)) as H.
    destruct (forEach subscribe _ _) as [c s' effs]. cbn [state] in H |- *.
    rewrite H. unfold has_socket, clear. break_service s. fields.
    destruct (on && match sock with Some _ => true | None => false end); [| reflexivity].
    now rewrite (fold_add_fresh syms []).
Qed.

Lemma consistent_open_running s : consistent s -> ws_is_open s = true -> running s = true.
Proof.
  intros C H. destruct (running s) eqn:E; [reflexivity |].
  unfold ws_is_open in H. rewrite (stopped_ws C E) in H. discriminate.
Qed.

(** C10: when [resubscribeAll] runs while the socket is open, the set it
    leaves is the set it found - the same symbols, and in the same order -
    so [getSubscribedSymbols] answers the same before and after replay. *)
Theorem replay_preserves_registry s :
  consistent s -> ws_is_open s = true ->
  let r := resubscribeAll s in
  completion r = Normal tt /\
  getSubscribedSymbols (state r) = getSubscribedSymbols s /\
  forall sym, In sym (getSubscribedSymbols (state r)) <-> In sym (getSubscribedSymbols s).
Proof.
  intros C Hopen r. subst r.
  rewrite (resubscribeAll_open s (consistent_open_running C Hopen) Hopen (symbols_nodup C)).
  cbn [completion state]. repeat split; trivial.
Qed.

Lemma replay_preserves_registry_witness :
  let s := with_symbols (fun _ => ["AAPL"; "MSFT"]) Sample.open in
  let r := resubscribeAll s in
  completion r = Normal tt /\
  getSubscribedSymbols (state r) = getSubscribedSymbols s /\
  forall sym, In sym (getSubscribedSymbols (state r)) <-> In sym (getSubscribedSymbols s).
Proof.
  apply (@replay_preserves_registry (with_symbols (fun _ => ["AAPL"; "MSFT"]) Sample.open)).
  - constructor; cbn; try discriminate.
    repeat constructor; cbn; intuition discriminate.
  - reflexivity.
Defined.

(** Why consistency is asked for: on a service that is not running but
    still holds symbols - a state the event loop never produces - the
    replay would lose them. *)
Example replay_needs_running :
  let s := set_running false (with_symbols (fun _ => ["AAPL"]) Sample.open) in
  ws_is_open s = true /\ getSubscribedSymbols (state (resubscribeAll s)) = [].
Proof. split; reflexivity. Qed.

(* ===================================================================== *)
(** * The event loop: what each event does *)
(* ===================================================================== *)

Lemma quiet_effects_silent effs :
  forallb quiet_effect effs = true ->
  scheduled_reconnects effs = [] /\ connection_lost effs = 0%nat.
Proof.
  unfold scheduled_reconnects, connection_lost, emitted.
  induction effs as [| e effs IH]; [split; reflexivity |].
  cbn [forallb]. intros H. apply andb_true_iff in H as [He H].
  destruct (IH H) as [IH1 IH2]. cbn [flat_map].
  destruct e as [| | | | | cb d | | | | b | | | |]; try destruct cb; try destruct b;
    try discriminate; cbn; split; assumption.
Qed.

Lemma decoder_effect_quiet effs :
  forallb decoder_effect effs = true -> forallb quiet_effect effs = true.
Proof.
  intros H. rewrite forallb_forall in *. intros e He. specialize (H e He).
  destruct e as [| | | | | cb d | | | | b | | | |]; try destruct b; try discriminate; reflexivity.
Qed.

Lemma publish_effects listeners entry s :
  forallb decoder_effect (effects (publish listeners entry s)) = true.
Proof. rewrite publish_unfold. destruct entry; reflexivity. Qed.

Lemma publish_all_effects listeners entries : forall s,
  forallb decoder_effect (effects (forEach (publish listeners) entries s)) = true.
Proof.
  induction entries as [| e es IH]; intros s; [reflexivity |].
  cbn [forEach]. rewrite bind_unfold. pose proof (publish_effects listeners e s) as He.
  destruct (completion (publish listeners e s)); cbn [effects]; [| exact He].
  rewrite forallb_app, He. apply IH.
Qed.

Lemma scheduled_reconnects_app a b :
  scheduled_reconnects (a ++ b) = scheduled_reconnects a ++ scheduled_reconnects b.
Proof. unfold scheduled_reconnects. apply flat_map_app. Qed.

Lemma connection_lost_app a b :
  connection_lost (a ++ b) = (connection_lost a + connection_lost b)%nat.
Proof.
  unfold connection_lost, emitted.
  now rewrite flat_map_app, filter_app, length_app.
Qed.

Lemma sent_app a b : sent (a ++ b) = sent a ++ sent b.
Proof. unfold sent. apply flat_map_app. Qed.


Lemma disconnects_cons e events :
  disconnects (e :: events) = ((if is_close e then 1 else 0) + disconnects events)%nat.
Proof. unfold disconnects. cbn [filter]. now destruct (is_close e). Qed.

(** The case analysis of a close event: once the fields, the staleness
    of the event, the budget test [E] and the answer [L] of the
    listeners of 'market:connection-lost' are known, the handler
    computes. *)
Ltac close_step E L :=
  unfold dispatch, turn, try_catch, bind, on_close, handleDisconnect, emit, this;
  cbn; rewrite ?E; cbn; rewrite ?L; cbn.

Section Loop.

Variable JSON_parse : string -> option JSON.
Variable WebSocket_new : string -> option Exception.
Variable listeners : BusEvent -> option Exception.

Local Abbreviation dispatch' := (dispatch JSON_parse WebSocket_new listeners).
Local Abbreviation handler' := (handler JSON_parse WebSocket_new listeners).
Local Abbreviation run' := (run JSON_parse WebSocket_new listeners).
Local Abbreviation reachable' := (reachable JSON_parse WebSocket_new listeners).
Local Abbreviation handleMessage' := (handleMessage JSON_parse listeners).
Local Abbreviation handleDisconnect' := (handleDisconnect listeners).
Local Abbreviation connect' := (connect WebSocket_new).
Local Abbreviation start' := (start WebSocket_new).

Lemma connect_unfold s :
  connect' s =
    match WebSocket_new (url_of s) with
    | None =>
        mkOutcome (Normal Pending)
          (set_connectionTimeout (Some timeout_handle)
             (set_ws (Some {| readyState := CONNECTING |}) s))
          [Log debug "Connecting to Finnhub WebSocket"; WsNew (url_of s);
           SetTimeout ConnectionTimeoutCallback 10000]
    | Some e =>
        mkOutcome (Normal (Rejected e)) s
          [Log debug "Connecting to Finnhub WebSocket"; WsNew (url_of s);
           Log error "Failed to connect to WebSocket"; Reject e]
    end.
Proof.
  unfold connect, try_catch, bind, this, construct, url_of.
  cbn [completion state effects logger call].
  destruct (WebSocket_new (wsUrl s ++ "?token=" ++ apiKey s)); reflexivity.
Qed.

Lemma on_open_unfold s :
  on_open s =
    let r := resubscribeAll (set_connectionTimeout None (set_reconnectAttempts 0 s)) in
    mkOutcome (Normal tt) (set_pingInterval (Some ping_handle) (state r))
      (Log info "WebSocket connected successfully"
         :: cleared ClearTimeout (connectionTimeout s)
         ++ effects r ++ [SetInterval PingCallback 30000; Resolve]).
Proof.
  break_service s. unfold on_open, bind, this.
  destruct tmo as [h |]; cbn -[resubscribeAll]; fields;
    match goal with |- context [resubscribeAll ?x] =>
      destruct (resubscribeAll_frame_rule x) as [Hc _];
      destruct (resubscribeAll x) as [[[] | e] s' effs]
    end; cbn in Hc |- *; try discriminate; reflexivity.
Qed.

Lemma handleMessage_effects data s :
  forallb decoder_effect (effects (handleMessage' data s)) = true.
Proof.
  unfold handleMessage, try_catch, parse, bind.
  destruct (JSON_parse data) as [message |]; [| reflexivity].
  destruct message as [| b | n | str | items | fields]; try reflexivity.
  cbn -[forEach publish]. destruct (lookup "type" fields) as [type |]; [| reflexivity].
  cbn -[forEach publish].
  destruct (strict_eq_string (Some type) "ping"); [reflexivity |].
  destruct (strict_eq_string (Some type) "trade"); [| reflexivity].
  cbn -[forEach publish]. destruct (truthy (lookup "data" fields)); [| reflexivity].
  cbn -[forEach publish].
  destruct (lookup "data" fields) as [[| b | n | str | items | fs] |]; try reflexivity.
  cbn -[forEach publish]. pose proof (publish_all_effects listeners items s) as He.
  destruct (forEach (publish listeners) items s) as [[[] | e] s' effs]; cbn in He |- *.
  - exact He.
  - rewrite forallb_app, He. reflexivity.
Qed.

Lemma transport_unfold rs s :
  transport rs s =
    mkOutcome (Normal tt)
      (match ws s with Some _ => set_ws (Some {| readyState := rs |}) s | None => s end) [].
Proof. reflexivity. Qed.

(** Every handler but that of a close event runs to its end, and only
    [start()] and [stop()] assign [running]. *)
Lemma handler_rule e s :
  (is_close e = false -> completion (handler' e s) = Normal tt) /\
  running (state (handler' e s)) =
    match e with
    | Call_start => true
    | Call_stop => false
    | _ => running s
    end.
Proof.
  destruct e as [| | sym | sym | | data | err | stale | | | cb |];
    cbn [handler is_close].
  - unfold discard, start, bind, this. cbn [completion state effects].
    destruct (running s) eqn:E; cbn [completion state effects logger call assign].
    + now split.
    + rewrite connect_unfold. destruct (WebSocket_new _); now split.
  - break_service s. destruct on, ping, tmo, sock; now split.
  - destruct (subscribe_frame_rule sym s) as [Hc [l Hl]]. rewrite Hl. now split.
  - destruct (unsubscribe_frame_rule sym s) as [Hc [l Hl]]. rewrite Hl. now split.
  - unfold bind. rewrite transport_unfold. cbn [completion state effects].
    rewrite on_open_unfold. cbn [completion state effects]. split; [reflexivity |].
    match goal with |- context [resubscribeAll ?x] =>
      destruct (resubscribeAll_frame_rule x) as [_ [l Hl]]; rewrite Hl end.
    break_service s. now destruct sock.
  - unfold on_message.
    destruct (handleMessage_contained JSON_parse listeners data s) as [Hc Hs].
    now rewrite Hs.
  - break_service s. destruct sock as [[[]] |]; now split.
  - split; [discriminate |]. break_service s.
    destruct stale, on, ping, sock, (attempts <? maxReconnectAttempts) eqn:E,
      (listeners market_connection_lost) eqn:L;
      close_step E L; reflexivity.
  - now split.
  - now split.
  - destruct cb; cbn.
    + break_service s. destruct sock as [[[]] |]; now split.
    + break_service s. destruct sock as [[[]] |]; now split.
    + unfold on_reconnectTimer, bind, this. cbn [completion state effects].
      destruct (running s) eqn:E; [| now split].
      rewrite connect_unfold. destruct (WebSocket_new _); now split.
  - rewrite on_open_unfold. cbn [completion state effects]. split; [reflexivity |].
    match goal with |- context [resubscribeAll ?x] =>
      destruct (resubscribeAll_frame_rule x) as [_ [l Hl]]; rewrite Hl end.
    now destruct s.
Qed.

(** But for a close event, a turn of the loop is the handler. *)
Lemma dispatch_handler e s : is_close e = false -> dispatch' e s = handler' e s.
Proof.
  intros Hc. unfold dispatch. destruct (is_callback e); [| reflexivity].
  unfold turn. rewrite try_catch_unfold.
  now rewrite (proj1 (handler_rule e s) Hc).
Qed.

(** Every event runs to completion, and only [start()] and [stop()]
    assign [running]. *)
Lemma dispatch_rule e s :
  completion (dispatch' e s) = Normal tt /\
  running (state (dispatch' e s)) =
    match e with
    | Call_start => true
    | Call_stop => false
    | _ => running s
    end.
Proof.
  destruct (is_close e) eqn:Hc.
  - destruct e as [| | | | | | | stale | | | |]; try discriminate. break_service s.
    destruct stale, on, ping, sock, (attempts <? maxReconnectAttempts) eqn:E,
      (listeners market_connection_lost) eqn:L;
      close_step E L; now split.
  - rewrite (dispatch_handler e s Hc). destruct (handler_rule e s) as [H1 H2].
    split; [now apply H1 | exact H2].
Qed.

Lemma dispatch_normal e s : completion (dispatch' e s) = Normal tt.
Proof. apply dispatch_rule. Qed.

Lemma run_cons e events s :
  run' (e :: events) s =
    let r := dispatch' e s in
    let r' := run' events (state r) in
    mkOutcome (completion r') (state r') (effects r ++ effects r').
Proof.
  unfold run. cbn [forEach]. rewrite bind_unfold.
  now rewrite dispatch_normal.
Qed.

Lemma run_nil s : run' [] s = mkOutcome (Normal tt) s [].
Proof. reflexivity. Qed.

Lemma run_normal events : forall s, completion (run' events s) = Normal tt.
Proof.
  induction events as [| e es IH]; intros s; [reflexivity |].
  rewrite run_cons. cbn. apply IH.
Qed.

Lemma run_app ev1 ev2 : forall s,
  run' (ev1 ++ ev2) s =
    let r := run' ev1 s in
    let r' := run' ev2 (state r) in
    mkOutcome (completion r') (state r') (effects r ++ effects r').
Proof.
  induction ev1 as [| e es IH]; intros s.
  - change (run' [] s) with (mkOutcome (Normal tt) s []).
    cbn [app state effects]. now destruct (run' ev2 s).
  - rewrite <- app_comm_cons, !run_cons. cbn zeta. rewrite IH. cbn.
    now rewrite app_assoc.
Qed.

(* ------------------------------------------------------------------- *)
(** ** Terminal reconnection failure *)
(* ------------------------------------------------------------------- *)

Lemma handleDisconnect_lost s :
  In (Emit market_connection_lost) (effects (handleDisconnect' s)) ->
  running s = true /\ maxReconnectAttempts <= reconnectAttempts s /\
  state (handleDisconnect' s) = s.
Proof.
  break_service s. unfold handleDisconnect, emit, bind, this. cbn.
  destruct on; cbn; [| intros []].
  destruct (N.ltb_spec attempts maxReconnectAttempts) as [Hlt | Hge]; cbn.
  - intros [H | [H | []]]; discriminate.
  - destruct (listeners market_connection_lost); cbn; intros _; repeat split; exact Hge.
Qed.

Lemma run_keeps_running events : forall s,
  running s = true ->
  forallb (fun e => negb (is_stop e)) events = true ->
  running (state (run' events s)) = true.
Proof.
  induction events as [| e es IH]; intros s Hrun Hev; [exact Hrun |].
  cbn [forallb] in Hev. apply andb_true_iff in Hev as [He Hes].
  rewrite run_cons. cbn [state]. apply IH; [| exact Hes].
  destruct (dispatch_rule e s) as [_ ->].
  destruct e; try exact Hrun; try reflexivity. discriminate.
Qed.

(** C1 (amended): once the reconnect budget is used up and
    'market:connection-lost' has been published, [isRunning()] still
    answers true, and it keeps answering true whatever happens next,
    until [stop()] is called; only then does it answer false. *)
Theorem lost_connection_keeps_running s events :
  In (Emit market_connection_lost) (effects (handleDisconnect' s)) ->
  forallb (fun e => negb (is_stop e)) events = true ->
  let failed := state (handleDisconnect' s) in
  isRunning failed = true /\
  isRunning (state (run' events failed)) = true /\
  isRunning (state (run' (events ++ [Call_stop]) failed)) = false.
Proof.
  intros Hlost Hev failed. subst failed.
  destruct (handleDisconnect_lost s Hlost) as (Hrun & _ & ->).
  unfold isRunning. repeat split.
  - exact Hrun.
  - now apply run_keeps_running.
  - rewrite run_app. cbn zeta. cbn [state]. rewrite run_cons. cbn zeta.
    rewrite run_nil. cbn [state].
    now destruct (dispatch_rule Call_stop (state (run' events s))) as [_ ->].
Qed.

(* ------------------------------------------------------------------- *)
(** ** The reconnect policy *)
(* ------------------------------------------------------------------- *)

(** An event that is neither a disconnect, nor an open, nor a [stop()]
    leaves the attempt counter alone, schedules no reconnect and
    reports no lost connection. *)
Lemma dispatch_quiet e s :
  keeps_failing e = true -> is_close e = false -> running s = true ->
  reconnectAttempts (state (dispatch' e s)) = reconnectAttempts s /\
  forallb quiet_effect (effects (dispatch' e s)) = true.
Proof.
  intros Hk Hc Hrun. rewrite (dispatch_handler e s Hc).
  destruct e as [| | sym | sym | | data | err | stale | | | cb |];
    try discriminate; cbn [handler].
  - unfold discard, start, bind, this. cbn [completion state effects].
    rewrite Hrun. now split.
  - break_service s. subst on. destruct sock as [[[]] |]; now split.
  - break_service s. subst on. destruct sock as [[[]] |]; now split.
  - unfold on_message.
    destruct (handleMessage_contained JSON_parse listeners data s) as [_ ->].
    split; [reflexivity |]. apply decoder_effect_quiet, handleMessage_effects.
  - break_service s. destruct sock as [[[]] |]; now split.
  - now split.
  - now split.
  - destruct cb; cbn.
    + break_service s. destruct sock as [[[]] |]; now split.
    + break_service s. destruct sock as [[[]] |]; now split.
    + unfold on_reconnectTimer, bind, this. cbn [completion state effects].
      rewrite Hrun, connect_unfold. destruct (WebSocket_new _); now split.
Qed.

(** A disconnect while running: one more attempt within the budget,
    the lost-connection event beyond it. *)
Lemma dispatch_close stale s :
  running s = true ->
  let r := dispatch' (Ws_close stale) s in
  if reconnectAttempts s <? maxReconnectAttempts then
    reconnectAttempts (state r) = reconnectAttempts s + 1 /\
    scheduled_reconnects (effects r) = [reconnectDelay * (reconnectAttempts s + 1)] /\
    connection_lost (effects r) = 0%nat
  else
    reconnectAttempts (state r) = reconnectAttempts s /\
    scheduled_reconnects (effects r) = [] /\
    connection_lost (effects r) = 1%nat.
Proof.
  intros Hrun r. subst r. break_service s. subst on.
  destruct (attempts <? maxReconnectAttempts) eqn:E;
    destruct stale, ping, sock, (listeners market_connection_lost) eqn:L;
    close_step E L; repeat split.
Qed.

Lemma backoff_from events : forall s,
  running s = true -> reconnectAttempts s <= maxReconnectAttempts ->
  forallb keeps_failing events = true ->
  let a := N.to_nat (reconnectAttempts s) in
  let k := disconnects events in
  scheduled_reconnects (effects (run' events s)) =
    map (fun i => reconnectDelay * N.of_nat i) (seq (S a) (Nat.min k (5 - a))) /\
  connection_lost (effects (run' events s)) = (k - (5 - a))%nat.
Proof.
  unfold maxReconnectAttempts. cbn zeta.
  induction events as [| e es IH]; intros s Hrun Hle Hev.
  - cbn. split; [reflexivity | lia].
  - cbn [forallb] in Hev. apply andb_true_iff in Hev as [He Hes].
    rewrite run_cons. cbn zeta. cbn [effects].
    rewrite scheduled_reconnects_app, connection_lost_app.
    assert (Hrun' : running (state (dispatch' e s)) = true).
    { destruct (dispatch_rule e s) as [_ ->].
      destruct e; try exact Hrun; try reflexivity; discriminate. }
    rewrite disconnects_cons.
    destruct (is_close e) eqn:Hclose; cbn [Nat.add].
    + destruct e as [| | | | | | | stale | | | |]; try discriminate.
      pose proof (dispatch_close stale s Hrun) as H. cbn zeta in H.
      unfold maxReconnectAttempts in H.
      destruct (N.ltb_spec (reconnectAttempts s) 5) as [Hlt | Hge].
      * destruct H as (Ha & Hs & Hl). rewrite Hs, Hl.
        destruct (IH _ Hrun' ltac:(rewrite Ha; lia) Hes) as [IH1 IH2].
        rewrite IH1, IH2, Ha.
        replace (N.to_nat (reconnectAttempts s + 1)) with (S (N.to_nat (reconnectAttempts s))) by lia.
        assert (Hlt' : (N.to_nat (reconnectAttempts s) < 5)%nat) by lia.
        split.
        -- replace (Nat.min (S (disconnects es)) (5 - N.to_nat (reconnectAttempts s)))
             with (S (Nat.min (disconnects es) (5 - S (N.to_nat (reconnectAttempts s))))) by lia.
           cbn [seq map app]. do 2 f_equal. lia.
        -- lia.
      * destruct H as (Ha & Hs & Hl). rewrite Hs, Hl.
        destruct (IH _ Hrun' ltac:(rewrite Ha; lia) Hes) as [IH1 IH2].
        rewrite IH1, IH2, Ha.
        assert (Heq : N.to_nat (reconnectAttempts s) = 5%nat) by lia.
        rewrite Heq. cbn [Nat.sub]. rewrite !Nat.min_0_r. cbn. split; [reflexivity | lia].
    + destruct (dispatch_quiet e s He Hclose Hrun) as [Ha Hq].
      destruct (quiet_effects_silent _ Hq) as [Hs Hl]. rewrite Hs, Hl.
      destruct (IH _ Hrun' ltac:(rewrite Ha; lia) Hes) as [IH1 IH2].
      rewrite IH1, IH2, Ha. split; reflexivity.
Qed.

(** C5: counting from a successful open, as long as no further open
    succeeds, the reconnects scheduled by the first five disconnects
    wait 5, 10, 15, 20 and 25 time units - five time units times the
    attempt counter - and every disconnect after the fifth, the sixth
    to begin with, publishes 'market:connection-lost' and schedules
    nothing more. *)
Theorem reconnect_backoff events s :
  running s = true -> reconnectAttempts s = 0 ->
  forallb keeps_failing events = true ->
  let r := run' events s in
  let k := disconnects events in
  scheduled_reconnects (effects r) = firstn k backoff /\
  backoff = map (fun units => units * time_unit) [5; 10; 15; 20; 25] /\
  connection_lost (effects r) = (k - 5)%nat.
Proof.
  intros Hrun Hzero Hev r k. subst r k.
  destruct (backoff_from events s Hrun ltac:(rewrite Hzero; discriminate) Hev) as [H1 H2].
  rewrite Hzero in H1, H2. cbn [N.to_nat Nat.sub] in H1, H2.
  rewrite H1, H2. repeat split.
  remember (disconnects events) as k eqn:Hk. clear.
  do 6 (destruct k as [| k]; [reflexivity |]). reflexivity.
Qed.

(* ------------------------------------------------------------------- *)
(** ** A successful open *)
(* ------------------------------------------------------------------- *)

Lemma open_unfold s w :
  running s = true -> ws s = Some w -> NoDup (subscribedSymbols s) ->
  dispatch' Ws_open s =
    mkOutcome (Normal tt) (opened s)
      (Log info "WebSocket connected successfully"
         :: cleared ClearTimeout (connectionTimeout s)
         ++ replay_lines (subscribedSymbols s)
         ++ [SetInterval PingCallback 30000; Resolve]).
Proof.
  intros Hrun Hws Hnd. rewrite dispatch_handler by reflexivity. cbn [handler].
  rewrite bind_unfold, transport_unfold, Hws. cbn [completion state effects app].
  rewrite on_open_unfold. cbn zeta.
  rewrite resubscribeAll_open by (break_service s; subst; first [reflexivity | assumption]).
  cbn [completion state effects]. unfold opened. break_service s. subst.
  reflexivity.
Qed.

Lemma sent_cleared clear_call h :
  (forall x, match clear_call x with WsSend _ => False | _ => True end) ->
  sent (cleared clear_call h) = [].
Proof.
  intros H. destruct h as [h |]; [| reflexivity]. unfold sent. cbn.
  specialize (H h). now destruct (clear_call h).
Qed.

(* ------------------------------------------------------------------- *)
(** ** Consistency is kept by the event loop *)
(* ------------------------------------------------------------------- *)

Ltac consistency C :=
  destruct C as [I1 I2 I3 I5]; constructor; fields; cbn -[add delete] in *; intros;
  repeat match goal with
         | H : ?a = ?a -> _ |- _ => specialize (H eq_refl)
         | H : ?P -> _, H' : ?P |- _ => specialize (H H')
         end;
  try discriminate; try congruence; auto using add_NoDup, delete_NoDup, NoDup_nil.

Lemma dispatch_consistent e s :
  consistent s -> enabled e s = true -> consistent (state (dispatch' e s)).
Proof.
  intros C Hen.
  destruct (is_close e) eqn:Hc.
  { destruct e as [| | | | | | | stale | | | |]; try discriminate. break_service s.
    destruct stale, on, ping, sock, (attempts <? maxReconnectAttempts) eqn:E,
      (listeners market_connection_lost) eqn:L;
      close_step E L; consistency C. }
  rewrite (dispatch_handler e s Hc). clear Hc.
  destruct e as [| | sym | sym | | data | err | stale | | | cb |]; cbn [handler].
  - unfold discard, start, bind, this. destruct (running s) eqn:E.
    + cbn. exact C.
    + cbn -[connect]. rewrite connect_unfold.
      destruct (WebSocket_new _); cbn; break_service s; consistency C.
  - break_service s. destruct on, ping, tmo, sock; consistency C.
  - break_service s. destruct on, sock as [[[]] |]; consistency C.
  - break_service s. destruct on, sock as [[[]] |]; consistency C.
  - cbn in Hen. destruct (ws s) as [w |] eqn:Hws; [| discriminate].
    assert (Hrun : running s = true).
    { destruct (running s) eqn:E; [reflexivity |].
      rewrite (stopped_ws C E) in Hws. discriminate. }
    change (consistent (state (handler' Ws_open s))).
    rewrite <- (dispatch_handler Ws_open s eq_refl).
    rewrite (open_unfold s Hrun Hws (symbols_nodup C)). cbn [state].
    unfold opened. break_service s. consistency C.
  - unfold on_message.
    destruct (handleMessage_contained JSON_parse listeners data s) as [_ ->].
    exact C.
  - break_service s. destruct sock as [[[]] |]; consistency C.
  - break_service s.
    destruct stale, on, ping, sock, (attempts <? maxReconnectAttempts) eqn:E,
      (listeners market_connection_lost) eqn:L;
      close_step E L; consistency C.
  - exact C.
  - exact C.
  - destruct cb; cbn.
    + break_service s. destruct sock as [[[]] |]; consistency C.
    + break_service s. destruct sock as [[[]] |]; consistency C.
    + unfold on_reconnectTimer, bind, this.
      destruct (running s) eqn:E; cbn [completion state effects].
      * rewrite connect_unfold. destruct (WebSocket_new _); cbn;
          break_service s; consistency C.
      * exact C.
  - rewrite on_open_unfold. cbn zeta. cbn [state].
    set (s0 := set_connectionTimeout None (set_reconnectAttempts 0 s)).
    assert (Hnd : NoDup (subscribedSymbols s0)) by (destruct s; exact (symbols_nodup C)).
    pose proof (resubscribeAll_symbols s0 Hnd) as Hsy.
    destruct (resubscribeAll_frame_rule s0) as [_ [l Hl]].
    rewrite Hl in Hsy |- *. unfold s0, has_socket in *. clear s0 Hl.
    break_service s. fields. subst l.
    destruct on, sock; consistency C.
Qed.

Lemma new_consistent key url : consistent (new_MarketDataService key url).
Proof. constructor; cbn; intros; trivial. constructor. Qed.

(** Every state the event loop reaches is consistent. *)
Lemma reachable_consistent s : reachable' s -> consistent s.
Proof.
  induction 1 as [key url | e s _ IH Hen].
  - apply new_consistent.
  - now apply dispatch_consistent.
Qed.

(** A run of enabled events leads from a reachable state to a reachable
    state. *)
Lemma reachable_run events : forall s,
  reachable' s -> runnable JSON_parse WebSocket_new listeners events s = true ->
  reachable' (state (run' events s)).
Proof.
  induction events as [| e es IH]; intros s Hs Hev; [exact Hs |].
  cbn [runnable] in Hev. apply andb_true_iff in Hev as [He Hes].
  rewrite run_cons. cbn [state]. apply IH; [| exact Hes].
  now apply reachable_step.
Qed.

(* ------------------------------------------------------------------- *)
(** ** Calls made while the socket is still connecting *)
(* ------------------------------------------------------------------- *)




(* ------------------------------------------------------------------- *)
(** ** stop *)
(* ------------------------------------------------------------------- *)

(** C9 (amended): [stop()] twice does what [stop()] once does, in every
    state.  Neither call throws; the second finds the service stopped
    and does nothing but log, so the socket is closed at most once and
    the fields after the second call are those after the first.  On a
    running service the first call hands the keepalive and the connect
    timeout it holds to [clearInterval] and [clearTimeout], closes the
    socket it holds, and leaves the service as freshly constructed but
    for the attempt counter - not running, no socket, no handle, the set
    empty - and makes no other call; on a service that is not running it
    changes nothing.  The timer of a pending reconnect is no part of
    this: [stop()] has no handle for it. *)
Theorem stop_idempotent s :
  let once := stop s in
  let twice := stop (state once) in
  completion once = Normal Fulfilled /\
  completion twice = Normal Fulfilled /\
  state twice = state once /\
  actions (effects twice) = [] /\
  (closes (effects once ++ effects twice) <= 1)%nat /\
  isRunning (state twice) = false /\
  if running s then
    state once =
      set_reconnectAttempts (reconnectAttempts s)
        (new_MarketDataService (apiKey s) (wsUrl s)) /\
    actions (effects once) =
      cleared ClearInterval (pingInterval s)
      ++ cleared ClearTimeout (connectionTimeout s)
      ++ (if has_socket s then [WsCloseCall] else [])
  else
    state once = s /\ actions (effects once) = [].
Proof.
  intros once twice. subst once twice. unfold has_socket. break_service s.
  destruct on, ping, tmo, sock; cbn; repeat split; lia.
Qed.

End Loop.



(** C9, as stated, fails: the final state is not one with the timers
    cancelled.  A disconnect schedules a reconnect; [stop()], once or
    twice, hands no timer to [clearTimeout] (the keepalive was cleared by
    the close handler before), so that timer is still pending; and when
    the service is started again before it fires, it fires into the new
    session and dials a second socket. *)
Lemma stop_idempotent_counterexample :
  let r := run Sample.JSON_parse Sample.WebSocket_new Sample.listeners
               [Ws_close false; Call_stop; Call_stop] Sample.open in
  let r' := run Sample.JSON_parse Sample.WebSocket_new Sample.listeners
                [Call_start; Timer_fires ReconnectCallback] (state r) in
  scheduled_reconnects (effects r) = [5000] /\
  ~ In ReconnectCallback (cancelled (effects r)) /\
  isRunning (state r) = false /\
  List.length (dialled (effects r')) = 2%nat.
Proof.
  cbn. repeat split. intros [H | []]. discriminate.
Qed.

Lemma lost_connection_keeps_running_witness :
  let failed := state (handleDisconnect Sample.listeners Sample.exhausted) in
  let events := [Call_start; Ws_close false; Timer_fires ReconnectCallback; Ws_open] in
  isRunning failed = true /\
  isRunning (state (run Sample.JSON_parse Sample.WebSocket_new Sample.listeners
                        events failed)) = true /\
  isRunning (state (run Sample.JSON_parse Sample.WebSocket_new Sample.listeners
                        (events ++ [Call_stop]) failed)) = false.
Proof.
  apply (@lost_connection_keeps_running Sample.JSON_parse Sample.WebSocket_new
           Sample.listeners Sample.exhausted
           [Call_start; Ws_close false; Timer_fires ReconnectCallback; Ws_open]).
  - cbn. right. now left.
  - reflexivity.
Defined.

(** C1, as stated, fails: start a fresh service and let the socket close
    six times; the sixth close publishes 'market:connection-lost', and
    [isRunning()] still answers true. *)
Lemma lost_connection_counterexample :
  let r := run Sample.JSON_parse Sample.WebSocket_new Sample.listeners
               (Call_start :: repeat (Ws_close false) 6) Sample.fresh in
  connection_lost (effects r) = 1%nat /\ isRunning (state r) <> false.
Proof. cbn. split; [reflexivity | discriminate]. Qed.

Lemma reconnect_backoff_witness :
  let events := [Ws_close false; Timer_fires ReconnectCallback; Ws_close false;
                 Ws_close false; Ws_error TypeError; Ws_close false; Ws_close false;
                 Ws_close false] in
  let r := run Sample.JSON_parse Sample.WebSocket_new Sample.listeners events Sample.open in
  let k := disconnects events in
  scheduled_reconnects (effects r) = firstn k backoff /\
  backoff = map (fun units => units * time_unit) [5; 10; 15; 20; 25] /\
  connection_lost (effects r) = (k - 5)%nat.
Proof.
  apply (@reconnect_backoff Sample.JSON_parse Sample.WebSocket_new Sample.listeners
           [Ws_close false; Timer_fires ReconnectCallback; Ws_close false;
            Ws_close false; Ws_error TypeError; Ws_close false; Ws_close false;
            Ws_close false] Sample.open); reflexivity.
Defined.

(* ===================================================================== *)
(** * Further properties of the service *)
(* ===================================================================== *)

Lemma delete_add_fresh x l : ~ In x l -> delete x (add x l) = l.
Proof.
  intros H. unfold add. rewrite (proj2 (has_false_iff x l) H).
  unfold delete. rewrite filter_app. cbn. rewrite String.eqb_refl. cbn.
  rewrite app_nil_r. apply forallb_filter_id. apply forallb_forall.
  intros y Hy. destruct (String.eqb_spec x y); [subst; contradiction | reflexivity].
Qed.

Lemma unsubscribe_open sym s :
  running s = true -> ws_is_open s = true ->
  unsubscribe sym s =
    mkOutcome (Normal tt) (with_symbols (delete sym) s)
              [Log info ("Unsubscribing from " ++ sym)%string;
               WsSend (frame "unsubscribe" sym);
               Log debug "Sent unsubscribe message"].
Proof.
  unfold ws_is_open. break_service s. intros -> H.
  destruct sock as [w |]; [| discriminate].
  unfold unsubscribe, bind, this. cbn. rewrite H. reflexivity.
Qed.

(** [unsubscribe(symbol)] on a running service that holds a socket takes
    the symbol out of the set and leaves every other symbol in it; one
    unsubscribe frame goes out if the socket is open, none otherwise. *)
Theorem unsubscribe_removes sym s :
  running s = true -> has_socket s = true ->
  let r := unsubscribe sym s in
  completion r = Normal tt /\
  ~ In sym (getSubscribedSymbols (state r)) /\
  (forall x, x <> sym ->
     (In x (getSubscribedSymbols (state r)) <-> In x (getSubscribedSymbols s))) /\
  sent (effects r) = if ws_is_open s then [frame "unsubscribe" sym] else [].
Proof.
  intros Hrun Hsock r. subst r. unfold getSubscribedSymbols, array_from.
  rewrite unsubscribe_symbols, Hrun, Hsock. cbn [andb].
  destruct (unsubscribe_frame_rule sym s) as [Hc _].
  split; [exact Hc |]. split; [| split].
  - rewrite delete_In_iff. intros [_ H]. now apply H.
  - intros x Hx. rewrite delete_In_iff. tauto.
  - unfold has_socket in Hsock. destruct (ws s) as [w |] eqn:Hws; [| discriminate].
    destruct (ws_is_open s) eqn:Hopen.
    + now rewrite (unsubscribe_open sym s Hrun Hopen).
    + unfold ws_is_open in Hopen. rewrite Hws in Hopen.
      break_service s. subst. unfold unsubscribe, bind, this. cbn. rewrite Hopen.
      reflexivity.
Qed.

Lemma unsubscribe_removes_witness :
  let s := with_symbols (fun _ => ["AAPL"; "MSFT"]) Sample.open in
  let r := unsubscribe "AAPL" s in
  completion r = Normal tt /\
  ~ In "AAPL" (getSubscribedSymbols (state r)) /\
  (forall x, x <> "AAPL" ->
     (In x (getSubscribedSymbols (state r)) <-> In x (getSubscribedSymbols s))) /\
  sent (effects r) = if ws_is_open s then [frame "unsubscribe" "AAPL"] else [].
Proof.
  apply (@unsubscribe_removes "AAPL" (with_symbols (fun _ => ["AAPL"; "MSFT"]) Sample.open));
    reflexivity.
Defined.

(** Subscribing to a symbol the set does not hold and unsubscribing from
    it again gives back the set as it was, order included. *)
Theorem subscribe_unsubscribe_roundtrip sym s :
  running s = true -> has_socket s = true -> ~ In sym (subscribedSymbols s) ->
  let r := (subscribe sym ;; unsubscribe sym)%js s in
  completion r = Normal tt /\
  getSubscribedSymbols (state r) = getSubscribedSymbols s.
Proof.
  intros Hrun Hsock Hfresh r. subst r. rewrite bind_unfold.
  destruct (subscribe_frame_rule sym s) as [Hc [l Hl]]. rewrite Hc.
  cbn [completion state].
  destruct (unsubscribe_frame_rule sym (state (subscribe sym s))) as [Hc' _].
  split; [exact Hc' |].
  unfold getSubscribedSymbols, array_from.
  rewrite unsubscribe_symbols, subscribe_symbols.
  assert (Hkeep : running (state (subscribe sym s)) && has_socket (state (subscribe sym s)) = true).
  { rewrite Hl. unfold has_socket in *. break_service s. cbn. now rewrite Hrun, Hsock. }
  rewrite Hkeep, Hrun, Hsock. cbn [andb]. now apply delete_add_fresh.
Qed.

Lemma subscribe_unsubscribe_roundtrip_witness :
  let s := with_symbols (fun _ => ["MSFT"]) Sample.connecting in
  let r := (subscribe "AAPL" ;; unsubscribe "AAPL")%js s in
  completion r = Normal tt /\
  getSubscribedSymbols (state r) = getSubscribedSymbols s.
Proof.
  apply (@subscribe_unsubscribe_roundtrip "AAPL"
           (with_symbols (fun _ => ["MSFT"]) Sample.connecting));
    [reflexivity | reflexivity |].
  cbn. intros [H | []]. discriminate.
Defined.

Lemma decoder_effect_passive effs :
  forallb decoder_effect effs = true -> forallb passive_effect effs = true.
Proof.
  intros H. rewrite forallb_forall in *. intros e He. specialize (H e He).
  destruct e as [| | | | | cb d | | | | b | | | |]; try destruct b; try discriminate; reflexivity.
Qed.

Lemma decoder_effect_no_send effs :
  forallb decoder_effect effs = true -> sent effs = [] /\ dialled effs = [].
Proof.
  unfold sent, dialled. induction effs as [| e effs IH]; [now split |].
  cbn [forallb]. intros H. apply andb_true_iff in H as [He H].
  destruct (IH H) as [IH1 IH2].
  destruct e; try discriminate; cbn; now split.
Qed.

Lemma subscription_effect_no_dial effs :
  forallb subscription_effect effs = true -> dialled effs = [].
Proof.
  unfold dialled. induction effs as [| e effs IH]; [reflexivity |].
  cbn [forallb]. intros H. apply andb_true_iff in H as [He H].
  destruct e; try discriminate; cbn; now apply IH.
Qed.

Lemma subscribe_effects sym s : forallb subscription_effect (effects (subscribe sym s)) = true.
Proof. break_service s. destruct on, sock as [[[]] |]; reflexivity. Qed.

Lemma unsubscribe_effects sym s :
  forallb subscription_effect (effects (unsubscribe sym s)) = true.
Proof. break_service s. destruct on, sock as [[[]] |]; reflexivity. Qed.

Lemma forEach_subscribe_effects xs : forall s,
  forallb subscription_effect (effects (forEach subscribe xs s)) = true.
Proof.
  induction xs as [| x xs IH]; intros s; [reflexivity |].
  cbn [forEach]. rewrite bind_unfold.
  destruct (subscribe_frame_rule x s) as [-> _]. cbn [effects].
  now rewrite forallb_app, subscribe_effects, IH.
Qed.

Lemma resubscribeAll_effects s :
  forallb subscription_effect (effects (resubscribeAll s)) = true.
Proof.
  unfold resubscribeAll, bind, this.
  destruct (size (subscribedSymbols s) =? 0); [reflexivity |].
  cbn [logger call assign]. unfold array_from.
  pose proof (forEach_subscribe_effects (subscribedSymbols s)
                (set_subscribedSymbols (clear (subscribedSymbols s)) s)) as H.
  destruct (forEach subscribe _ _) as [c s' effs]. exact H.
Qed.

(** Without a socket the replay sends nothing. *)
Lemma forEach_subscribe_no_socket xs : forall s,
  ws s = None -> sent (effects (forEach subscribe xs s)) = [].
Proof.
  induction xs as [| x xs IH]; intros s Hws; [reflexivity |].
  cbn [forEach]. rewrite bind_unfold.
  assert (Hidle : subscribe x s =
            mkOutcome (Normal tt) s [Log error "Cannot subscribe - service not running"]).
  { apply subscribe_idle. unfold has_socket. rewrite Hws. apply andb_false_r. }
  rewrite Hidle. cbn [completion state effects]. rewrite sent_app. cbn.
  now apply IH.
Qed.

Lemma resubscribeAll_no_socket s : ws s = None -> sent (effects (resubscribeAll s)) = [].
Proof.
  intros Hws. unfold resubscribeAll, bind, this.
  destruct (size (subscribedSymbols s) =? 0); [reflexivity |].
  cbn [logger call assign]. unfold array_from.
  pose proof (forEach_subscribe_no_socket (subscribedSymbols s)
                (set_subscribedSymbols (clear (subscribedSymbols s)) s)) as H.
  destruct (forEach subscribe _ _) as [c s' effs]. cbn in *. apply H.
  now destruct s.
Qed.

(** Nor does it while the socket is not open. *)
Lemma subscribe_not_open sym s :
  ws_is_open s = false -> sent (effects (subscribe sym s)) = [].
Proof.
  unfold ws_is_open. break_service s.
  destruct on, sock as [[[]] |]; try discriminate; reflexivity.
Qed.

Lemma forEach_subscribe_not_open xs : forall s,
  ws_is_open s = false -> sent (effects (forEach subscribe xs s)) = [].
Proof.
  induction xs as [| x xs IH]; intros s Hws; [reflexivity |].
  cbn [forEach]. rewrite bind_unfold.
  destruct (subscribe_frame_rule x s) as [Hc [l Hl]]. rewrite Hc. cbn [effects].
  rewrite sent_app, (subscribe_not_open x s Hws), IH; [reflexivity |].
  rewrite Hl. unfold ws_is_open in *. now destruct s.
Qed.

Lemma resubscribeAll_not_open s :
  ws_is_open s = false -> sent (effects (resubscribeAll s)) = [].
Proof.
  intros Hws. unfold resubscribeAll, bind, this.
  destruct (size (subscribedSymbols s) =? 0); [reflexivity |].
  cbn [logger call assign]. unfold array_from.
  pose proof (forEach_subscribe_not_open (subscribedSymbols s)
                (set_subscribedSymbols (clear (subscribedSymbols s)) s)) as H.
  destruct (forEach subscribe _ _) as [c s' effs]. cbn in *. apply H.
  unfold ws_is_open in *. now destruct s.
Qed.

Lemma sent_open_lines h l : sent (open_lines h l) = map (frame "subscribe") l.
Proof.
  unfold open_lines. change (sent (?x :: ?r)) with (sent r).
  rewrite !sent_app, sent_replay_lines, sent_cleared by (intros; exact I).
  cbn. now rewrite app_nil_r.
Qed.

Lemma replay_lines_effects l : forallb subscription_effect (replay_lines l) = true.
Proof.
  unfold replay_lines. destruct (size l =? 0); [reflexivity |].
  cbn [forallb subscription_effect andb].
  apply forallb_forall. intros x Hx. apply in_flat_map in Hx as [y [_ Hy]].
  destruct Hy as [<- | [<- | [<- | []]]]; reflexivity.
Qed.

Lemma subscription_effect_quiet effs :
  forallb subscription_effect effs = true -> forallb quiet_effect effs = true.
Proof.
  intros H. rewrite forallb_forall in *. intros e He. specialize (H e He).
  destruct e; try discriminate; reflexivity.
Qed.

Lemma scheduled_open_lines h l : scheduled_reconnects (open_lines h l) = [].
Proof.
  apply quiet_effects_silent. unfold open_lines. cbn [forallb quiet_effect andb].
  rewrite !forallb_app, (subscription_effect_quiet _ (replay_lines_effects l)).
  now destruct h.
Qed.

Lemma dialled_open_lines h l : dialled (open_lines h l) = [].
Proof.
  unfold open_lines. change (dialled (?x :: ?r)) with (dialled r).
  unfold dialled. rewrite !flat_map_app.
  fold (dialled (replay_lines l)).
  rewrite (subscription_effect_no_dial _ (replay_lines_effects l)). now destruct h.
Qed.




Section CloseSendsNothing.

Variable JSON_parse : string -> option JSON.
Variable WebSocket_new : string -> option Exception.
Variable listeners : BusEvent -> option Exception.

Lemma sends_only_when_open_close stale s :
  sent (effects (dispatch JSON_parse WebSocket_new listeners (Ws_close stale) s)) = [] /\
  dialled (effects (dispatch JSON_parse WebSocket_new listeners (Ws_close stale) s)) = [].
Proof.
  break_service s.
  destruct stale, on, ping, sock, (attempts <? maxReconnectAttempts) eqn:E,
    (listeners market_connection_lost) eqn:L;
    close_step E L; split; reflexivity.
Qed.

End CloseSendsNothing.

Section More.

Variable JSON_parse : string -> option JSON.
Variable WebSocket_new : string -> option Exception.
Variable listeners : BusEvent -> option Exception.

Local Abbreviation step' := (dispatch JSON_parse WebSocket_new listeners).
Local Abbreviation code' := (handler JSON_parse WebSocket_new listeners).
Local Abbreviation steps' := (run JSON_parse WebSocket_new listeners).
Local Abbreviation reached' := (reachable JSON_parse WebSocket_new listeners).

(** No frame is handed to [ws.send] unless the socket is open: whatever
    the event, a service whose socket is not open (and is not just
    opening) sends nothing. *)
Theorem sends_only_when_open e s :
  may_send e s = false -> sent (effects (step' e s)) = [].
Proof.
  unfold may_send. intros H. apply orb_false_iff in H as [Hopen Hev].
  destruct (is_close e) eqn:Hc.
  { destruct e as [| | | | | | | stale | | | |]; try discriminate.
    apply sends_only_when_open_close. }
  rewrite (dispatch_handler _ _ _ e s Hc).
  destruct e as [| | sym | sym | | data | err | stale | | | cb |];
    cbn [handler is_held_open andb] in *.
  - unfold discard, start, bind, this. destruct (running s).
    + reflexivity.
    + cbn -[connect]. rewrite connect_unfold. destruct (WebSocket_new _); reflexivity.
  - break_service s. destruct on, ping, tmo, sock; reflexivity.
  - unfold ws_is_open in Hopen. break_service s.
    destruct on, sock as [[[]] |]; try discriminate; reflexivity.
  - unfold ws_is_open in Hopen. break_service s.
    destruct on, sock as [[[]] |]; try discriminate; reflexivity.
  - unfold has_socket in Hev. destruct (ws s) as [w |] eqn:Hws; [discriminate |].
    rewrite bind_unfold, transport_unfold, Hws. cbn [completion state effects app].
    rewrite on_open_unfold. cbn zeta. cbn [effects].
    change (sent (?x :: ?r)) with (sent r).
    rewrite !sent_app, sent_cleared by (intros; exact I).
    rewrite resubscribeAll_no_socket by (now destruct s). reflexivity.
  - unfold on_message. apply decoder_effect_no_send, handleMessage_effects.
  - break_service s. destruct sock as [[[]] |]; reflexivity.
  - discriminate.
  - reflexivity.
  - reflexivity.
  - destruct cb; cbn.
    + break_service s. destruct sock as [[[]] |]; reflexivity.
    + unfold ws_is_open in Hopen. break_service s.
      destruct sock as [[[]] |]; try discriminate; reflexivity.
    + unfold on_reconnectTimer, bind, this. destruct (running s); [| reflexivity].
      cbn -[connect]. rewrite connect_unfold. destruct (WebSocket_new _); reflexivity.
  - rewrite on_open_unfold. cbn zeta. cbn [effects].
    change (sent (?x :: ?r)) with (sent r).
    rewrite !sent_app, sent_cleared by (intros; exact I).
    rewrite resubscribeAll_not_open by (now destruct s). reflexivity.
Qed.

(** A stopped service stays stopped: short of [start()], no call, socket
    event or late timer sets it running, and none opens a socket, sends
    a frame, schedules a reconnect or reports the connection lost.  Two
    events still write to it: the open of a socket let go of resets the
    attempt counter and starts a keepalive timer, handle stored, and a
    late close clears the keepalive handle, if there is one.  Every
    other event changes no field at all - all that happens is logging,
    ticks of a frame still arriving, and [reject] on a promise already
    settled. *)
Theorem stopped_is_inert e s :
  consistent s -> running s = false -> is_start e = false ->
  let r := step' e s in
  (if is_open_event e then
     state r = set_pingInterval (Some ping_handle) (set_reconnectAttempts 0 s) /\
     actions (effects r) = [SetInterval PingCallback 30000; Resolve]
   else if is_close e then
     state r = set_pingInterval None s /\
     actions (effects r) = cleared ClearInterval (pingInterval s)
   else
     state r = s /\ forallb passive_effect (effects r) = true) /\
  isRunning (state r) = false /\
  sent (effects r) = [] /\
  dialled (effects r) = [] /\
  scheduled_reconnects (effects r) = [] /\
  connection_lost (effects r) = 0%nat.
Proof.
  intros C Hrun Hst r. subst r.
  pose proof (stopped_ws C Hrun) as Hws. pose proof (stopped_symbols C Hrun) as Hsy.
  pose proof (stopped_timeout C Hrun) as Hto.
  clear C. unfold isRunning.
  destruct (is_close e) eqn:Hc.
  { destruct e as [| | | | | | | stale | | | |]; try discriminate.
    cbn [is_open_event]. break_service s. subst.
    destruct stale, ping, (attempts <? maxReconnectAttempts) eqn:E,
      (listeners market_connection_lost) eqn:L;
      close_step E L; repeat split. }
  rewrite (dispatch_handler _ _ _ e s Hc).
  destruct e as [| | sym | sym | | data | err | stale | | | cb |];
    cbn [handler is_start is_open_event is_close] in *; try discriminate.
  - break_service s. subst. repeat split.
  - break_service s. subst. repeat split.
  - break_service s. subst. repeat split.
  - break_service s. subst. repeat split.
  - unfold on_message.
    destruct (handleMessage_contained JSON_parse listeners data s) as [_ ->].
    pose proof (handleMessage_effects JSON_parse listeners data s) as He.
    destruct (decoder_effect_no_send _ He) as [Hs Hd].
    destruct (quiet_effects_silent _ (decoder_effect_quiet _ He)) as [Hq Hl].
    repeat split; try assumption. now apply decoder_effect_passive.
  - break_service s. subst. repeat split.
  - repeat split; assumption.
  - repeat split; assumption.
  - destruct cb; break_service s; subst; repeat split.
  - break_service s. subst. repeat split.
Qed.

Lemma step_attempts_frame e s :
  is_open_event e = false -> is_close e = false ->
  reconnectAttempts (state (step' e s)) = reconnectAttempts s.
Proof.
  intros Ho Hc. rewrite (dispatch_handler _ _ _ e s Hc).
  destruct e as [| | sym | sym | | data | err | stale | | | cb |];
    try discriminate; cbn [handler].
  - unfold discard, start, bind, this. destruct (running s).
    + reflexivity.
    + cbn -[connect]. rewrite connect_unfold. destruct (WebSocket_new _); reflexivity.
  - break_service s. destruct on, ping, tmo, sock; reflexivity.
  - destruct (subscribe_frame_rule sym s) as [_ [l ->]]. now destruct s.
  - destruct (unsubscribe_frame_rule sym s) as [_ [l ->]]. now destruct s.
  - unfold on_message.
    now destruct (handleMessage_contained JSON_parse listeners data s) as [_ ->].
  - break_service s. destruct sock as [[[]] |]; reflexivity.
  - reflexivity.
  - reflexivity.
  - destruct cb; cbn.
    + break_service s. destruct sock as [[[]] |]; reflexivity.
    + break_service s. destruct sock as [[[]] |]; reflexivity.
    + unfold on_reconnectTimer, bind, this. destruct (running s); [| reflexivity].
      cbn -[connect]. rewrite connect_unfold. destruct (WebSocket_new _); reflexivity.
Qed.

(** The attempt counter is assigned by an open (which resets it) and by a
    disconnect only: [start()], [stop()] and every other event leave it
    as it is. *)
Theorem attempts_change_only_on_open_or_close e s :
  is_open_event e = false -> is_close e = false ->
  reconnectAttempts (state (step' e s)) = reconnectAttempts s.
Proof. apply step_attempts_frame. Qed.

Lemma step_attempts_bound e s :
  reconnectAttempts s <= maxReconnectAttempts ->
  reconnectAttempts (state (step' e s)) <= maxReconnectAttempts.
Proof.
  intros Hle.
  destruct (is_open_event e) eqn:Ho; [| destruct (is_close e) eqn:Hc].
  - rewrite dispatch_handler by (now destruct e).
    destruct e; try discriminate; cbn [handler].
    + rewrite bind_unfold, transport_unfold. cbn [completion state effects app].
      rewrite on_open_unfold. cbn zeta. cbn [state].
      match goal with |- context [resubscribeAll ?x] =>
        destruct (resubscribeAll_frame_rule x) as [_ [l ->]] end.
      break_service s. destruct sock; cbn; discriminate.
    + rewrite on_open_unfold. cbn zeta. cbn [state].
      match goal with |- context [resubscribeAll ?x] =>
        destruct (resubscribeAll_frame_rule x) as [_ [l ->]] end.
      break_service s. cbn. discriminate.
  - destruct e as [| | | | | | | stale | | | |]; try discriminate.
    unfold maxReconnectAttempts in *. break_service s.
    assert (E5 : maxReconnectAttempts = 5) by reflexivity.
    destruct (N.ltb_spec attempts 5) as [Hlt | Hge];
      [ assert (E : (attempts <? maxReconnectAttempts) = true)
          by (rewrite E5; now apply N.ltb_lt)
      | assert (E : (attempts <? maxReconnectAttempts) = false)
          by (rewrite E5; now apply N.ltb_ge) ];
      destruct stale, on, ping, sock, (listeners market_connection_lost) eqn:L;
      close_step E L; lia.
  - now rewrite step_attempts_frame.
Qed.

(** The attempt counter never exceeds the budget of five. *)
Theorem attempts_within_budget s :
  reached' s -> reconnectAttempts s <= maxReconnectAttempts.
Proof.
  induction 1 as [key url | e s _ IH _]; [discriminate |].
  now apply step_attempts_bound.
Qed.

Lemma consistent_socket_running s w : consistent s -> ws s = Some w -> running s = true.
Proof.
  intros C Hws. destruct (running s) eqn:E; [reflexivity |].
  rewrite (stopped_ws C E) in Hws. discriminate.
Qed.

(** A successful open gives the reconnect budget back: the counter is at
    zero again, and the next disconnect waits the base delay. *)
Theorem open_restores_budget stale s :
  consistent s -> enabled Ws_open s = true ->
  let s' := state (step' Ws_open s) in
  reconnectAttempts s' = 0 /\
  scheduled_reconnects (effects (step' (Ws_close stale) s')) = [reconnectDelay] /\
  connection_lost (effects (step' (Ws_close stale) s')) = 0%nat.
Proof.
  intros C Hen s'. subst s'. cbn in Hen.
  destruct (ws s) as [w |] eqn:Hws; [| discriminate].
  rewrite (open_unfold JSON_parse WebSocket_new listeners s
             (consistent_socket_running C Hws) Hws (symbols_nodup C)).
  cbn [state]. split; [now destruct s |].
  assert (Hrun : running (opened s) = true).
  { pose proof (consistent_socket_running C Hws). now destruct s. }
  pose proof (dispatch_close JSON_parse WebSocket_new listeners stale (opened s) Hrun) as H.
  cbn zeta in H. change (reconnectAttempts (opened s)) with 0 in H.
  cbn [N.ltb N.compare maxReconnectAttempts] in H.
  destruct H as (_ & H1 & H2). now split.
Qed.

Lemma step_url e s : url_of (state (step' e s)) = url_of s.
Proof.
  unfold url_of.
  destruct (is_close e) eqn:Hc.
  { destruct e as [| | | | | | | stale | | | |]; try discriminate. break_service s.
    destruct stale, on, ping, sock, (attempts <? maxReconnectAttempts) eqn:E,
      (listeners market_connection_lost) eqn:L;
      close_step E L; reflexivity. }
  rewrite (dispatch_handler _ _ _ e s Hc).
  destruct e as [| | sym | sym | | data | err | stale | | | cb |]; cbn [handler].
  - unfold discard, start, bind, this. destruct (running s).
    + reflexivity.
    + cbn -[connect]. rewrite connect_unfold. destruct (WebSocket_new _); reflexivity.
  - break_service s. destruct on, ping, tmo, sock; reflexivity.
  - destruct (subscribe_frame_rule sym s) as [_ [l ->]]. now destruct s.
  - destruct (unsubscribe_frame_rule sym s) as [_ [l ->]]. now destruct s.
  - rewrite bind_unfold, transport_unfold. cbn [completion state effects app].
    rewrite on_open_unfold. cbn zeta. cbn [state].
    match goal with |- context [resubscribeAll ?x] =>
      destruct (resubscribeAll_frame_rule x) as [_ [l ->]] end.
    break_service s. now destruct sock.
  - unfold on_message.
    now destruct (handleMessage_contained JSON_parse listeners data s) as [_ ->].
  - break_service s. destruct sock as [[[]] |]; reflexivity.
  - discriminate.
  - reflexivity.
  - reflexivity.
  - destruct cb; cbn.
    + break_service s. destruct sock as [[[]] |]; reflexivity.
    + break_service s. destruct sock as [[[]] |]; reflexivity.
    + unfold on_reconnectTimer, bind, this. destruct (running s); [| reflexivity].
      cbn -[connect]. rewrite connect_unfold. destruct (WebSocket_new _); reflexivity.
  - rewrite on_open_unfold. cbn zeta. cbn [state].
    match goal with |- context [resubscribeAll ?x] =>
      destruct (resubscribeAll_frame_rule x) as [_ [l ->]] end.
    now destruct s.
Qed.

Lemma dialled_app a b : dialled (a ++ b) = dialled a ++ dialled b.
Proof. unfold dialled. apply flat_map_app. Qed.

Lemma step_dials e s u : In u (dialled (effects (step' e s))) -> u = url_of s.
Proof.
  destruct (is_close e) eqn:Hc.
  { destruct e as [| | | | | | | stale | | | |]; try discriminate.
    destruct (sends_only_when_open_close JSON_parse WebSocket_new listeners stale s)
      as [_ ->].
    intros []. }
  rewrite (dispatch_handler _ _ _ e s Hc).
  destruct e as [| | sym | sym | | data | err | stale | | | cb |]; cbn [handler].
  - unfold discard, start, bind, this. destruct (running s).
    + intros [].
    + cbn -[connect]. rewrite connect_unfold.
      destruct (WebSocket_new _); cbn; intros [H | []]; now rewrite <- H.
  - break_service s. destruct on, ping, tmo, sock; intros [].
  - rewrite (subscription_effect_no_dial _ (subscribe_effects sym s)). intros [].
  - rewrite (subscription_effect_no_dial _ (unsubscribe_effects sym s)). intros [].
  - rewrite bind_unfold, transport_unfold. cbn [completion state effects app].
    rewrite on_open_unfold. cbn zeta. cbn [effects].
    change (dialled (?x :: ?r)) with (dialled r).
    rewrite !dialled_app, (subscription_effect_no_dial _ (resubscribeAll_effects _)).
    assert (Hcl : forall h, dialled (cleared ClearTimeout h) = [])
      by (intros [h |]; reflexivity).
    rewrite Hcl. intros [].
  - unfold on_message.
    destruct (decoder_effect_no_send _ (handleMessage_effects JSON_parse listeners data s))
      as [_ ->].
    intros [].
  - break_service s. destruct sock as [[[]] |]; intros [].
  - discriminate.
  - intros [].
  - intros [].
  - destruct cb; cbn.
    + break_service s. destruct sock as [[[]] |]; intros [].
    + break_service s. destruct sock as [[[]] |]; intros [].
    + unfold on_reconnectTimer, bind, this. destruct (running s); [| intros []].
      cbn -[connect]. rewrite connect_unfold.
      destruct (WebSocket_new _); cbn; intros [H | []]; now rewrite <- H.
  - rewrite on_open_unfold. cbn zeta. cbn [effects].
    change (dialled (?x :: ?r)) with (dialled r).
    rewrite !dialled_app, (subscription_effect_no_dial _ (resubscribeAll_effects _)).
    assert (Hcl : forall h, dialled (cleared ClearTimeout h) = [])
      by (intros [h |]; reflexivity).
    rewrite Hcl. intros [].
Qed.

(** The URL of every socket the service creates, in whatever run of
    events, is [wsUrl?token=apiKey], with the two values the service was
    constructed with. *)
Theorem sockets_dial_the_configured_url events : forall s u,
  In u (dialled (effects (steps' events s))) ->
  u = (wsUrl s ++ "?token=" ++ apiKey s)%string.
Proof.
  induction events as [| e es IH]; intros s u; [intros [] |].
  rewrite run_cons. cbn zeta. cbn [effects]. rewrite dialled_app, in_app_iff.
  intros [H | H].
  - now apply step_dials in H.
  - apply IH in H. fold (url_of (state (step' e s))) in H. now rewrite step_url in H.
Qed.

(** When the [WebSocket] constructor throws, [start()] rejects with the
    exception thrown - but [running] has already been set: the service
    then reports itself running without a socket of its own, and a
    second [start()] does nothing. *)
Theorem start_constructor_throws s e :
  running s = false -> WebSocket_new (url_of s) = Some e ->
  let r := start WebSocket_new s in
  completion r = Normal (Rejected e) /\
  isRunning (state r) = true /\
  ws (state r) = ws s /\
  actions (effects r) = [WsNew (url_of s); Reject e] /\
  start WebSocket_new (state r) =
    mkOutcome (Normal Fulfilled) (state r) [Log warn "Service already running"].
Proof.
  intros Hrun Hctor r. subst r.
  assert (Hstart : start WebSocket_new s =
            mkOutcome (Normal (Rejected e)) (set_running true s)
              [Log info "Starting market data service";
               Log debug "Connecting to Finnhub WebSocket"; WsNew (url_of s);
               Log error "Failed to connect to WebSocket"; Reject e]).
  { unfold start, bind, this. rewrite Hrun. cbn -[connect].
    rewrite connect_unfold.
    change (url_of (set_running true s)) with (url_of s). now rewrite Hctor. }
  rewrite Hstart. cbn [completion state effects]. repeat split.
Qed.

(** [stop()] on a running service leaves it as freshly constructed, but
    for the attempt counter, which it does not reset; the socket, if
    there is one, is closed once. *)
Theorem stop_leaves_fresh s :
  running s = true ->
  state (stop s) =
    set_reconnectAttempts (reconnectAttempts s) (new_MarketDataService (apiKey s) (wsUrl s)) /\
  closes (effects (stop s)) = (if has_socket s then 1 else 0)%nat.
Proof.
  unfold has_socket. break_service s. intros ->.
  destruct ping, tmo, sock; split; reflexivity.
Qed.

(** The keepalive callback pings once per firing while the socket is
    open, and not at all otherwise; it touches no field. *)
Theorem keepalive_pings n : forall s,
  let r := steps' (repeat (Timer_fires PingCallback) n) s in
  state r = s /\ pings (effects r) = if ws_is_open s then n else 0%nat.
Proof.
  induction n as [| n IH]; intros s r; subst r.
  - cbn. split; [reflexivity | now destruct (ws_is_open s)].
  - cbn [repeat]. rewrite run_cons. cbn zeta. cbn [state effects].
    assert (Hstep : state (step' (Timer_fires PingCallback) s) = s /\
                    pings (effects (step' (Timer_fires PingCallback) s)) =
                      if ws_is_open s then 1%nat else 0%nat).
    { unfold ws_is_open. break_service s. destruct sock as [[[]] |]; now split. }
    destruct Hstep as [Hs Hp]. rewrite Hs.
    destruct (IH s) as [IHs IHp]. split; [exact IHs |].
    unfold pings in *. rewrite filter_app, length_app, Hp, IHp.
    now destruct (ws_is_open s).
Qed.

(** What [start()] does on a service that is not running when the
    constructor succeeds. *)
Lemma start_dials s :
  running s = false -> WebSocket_new (url_of s) = None ->
  step' Call_start s =
    mkOutcome (Normal tt)
      (set_connectionTimeout (Some timeout_handle)
         (set_ws (Some {| readyState := CONNECTING |}) (set_running true s)))
      [Log info "Starting market data service";
       Log debug "Connecting to Finnhub WebSocket"; WsNew (url_of s);
       SetTimeout ConnectionTimeoutCallback 10000].
Proof.
  intros Hrun Hctor. rewrite dispatch_handler by reflexivity. cbn [handler].
  unfold discard, start, bind, this.
  rewrite Hrun. cbn -[connect]. rewrite connect_unfold.
  change (url_of (set_running true s)) with (url_of s). now rewrite Hctor.
Qed.

Lemma reconnect_dials s :
  running s = true -> WebSocket_new (url_of s) = None ->
  step' (Timer_fires ReconnectCallback) s =
    mkOutcome (Normal tt)
      (set_connectionTimeout (Some timeout_handle)
         (set_ws (Some {| readyState := CONNECTING |}) s))
      [Log debug "Connecting to Finnhub WebSocket"; WsNew (url_of s);
       SetTimeout ConnectionTimeoutCallback 10000].
Proof.
  intros Hrun Hctor. rewrite dispatch_handler by reflexivity. cbn [handler].
  unfold on_reconnectTimer, bind, this.
  rewrite Hrun. cbn -[connect]. rewrite connect_unfold. now rewrite Hctor.
Qed.

Lemma close_within_budget stale s :
  running s = true -> reconnectAttempts s < maxReconnectAttempts ->
  state (step' (Ws_close stale) s) = disconnected stale s /\
  actions (effects (step' (Ws_close stale) s)) =
    cleared ClearInterval (pingInterval s)
    ++ [SetTimeout ReconnectCallback (reconnectDelay * (reconnectAttempts s + 1))].
Proof.
  intros Hrun Hlt. apply N.ltb_lt in Hlt. unfold disconnected.
  break_service s. subst on.
  destruct stale, ping, sock, (listeners market_connection_lost) eqn:L;
    close_step Hlt L; split; reflexivity.
Qed.

(** A disconnect is recovered from without losing a subscription: once
    the socket has closed, the reconnect timer has fired and the new
    socket has opened, every symbol of the set has been sent a fresh
    subscribe frame, the set is what it was, and the attempt counter is
    back at zero. *)
Theorem reconnect_replays_subscriptions stale s :
  consistent s -> running s = true ->
  reconnectAttempts s < maxReconnectAttempts ->
  WebSocket_new (url_of s) = None ->
  let r := steps' [Ws_close stale; Timer_fires ReconnectCallback; Ws_open] s in
  sent (effects r) = map (frame "subscribe") (getSubscribedSymbols s) /\
  getSubscribedSymbols (state r) = getSubscribedSymbols s /\
  ws_is_open (state r) = true /\
  reconnectAttempts (state r) = 0 /\
  scheduled_reconnects (effects r) = [reconnectDelay * (reconnectAttempts s + 1)] /\
  dialled (effects r) = [url_of s].
Proof.
  intros C Hrun Hlt Hctor r. subst r.
  destruct (close_within_budget stale s Hrun Hlt) as [Hs1 _].
  assert (Hsent1 : sent (effects (step' (Ws_close stale) s)) = [])
    by apply sends_only_when_open_close.
  assert (Hsched1 : scheduled_reconnects (effects (step' (Ws_close stale) s)) =
                    [reconnectDelay * (reconnectAttempts s + 1)]).
  { pose proof (dispatch_close JSON_parse WebSocket_new listeners stale s Hrun) as H. cbn zeta in H.
    rewrite (proj2 (N.ltb_lt _ _) Hlt) in H. apply H. }
  assert (Hdial1 : dialled (effects (step' (Ws_close stale) s)) = [])
    by apply sends_only_when_open_close.
  set (s1 := disconnected stale s) in *.
  assert (F1 : running s1 = true /\ url_of s1 = url_of s /\
               subscribedSymbols s1 = subscribedSymbols s).
  { unfold s1, disconnected. break_service s. destruct stale, sock; repeat split; assumption. }
  destruct F1 as (Hrun1 & Hurl1 & Hsym1).
  pose proof (reconnect_dials s1 Hrun1 ltac:(now rewrite Hurl1)) as Hs2.
  set (s2 := set_connectionTimeout (Some timeout_handle)
               (set_ws (Some {| readyState := CONNECTING |}) s1)) in *.
  assert (F2 : running s2 = true /\ ws s2 = Some {| readyState := CONNECTING |} /\
               subscribedSymbols s2 = subscribedSymbols s).
  { unfold s2. rewrite <- Hsym1. clear - Hrun1. break_service s1. now subst. }
  destruct F2 as (Hrun2 & Hws2 & Hsym2).
  pose proof (open_unfold JSON_parse WebSocket_new listeners s2 Hrun2 Hws2
                ltac:(rewrite Hsym2; exact (symbols_nodup C))) as Hs3.
  fold (open_lines (connectionTimeout s2) (subscribedSymbols s2)) in Hs3.
  rewrite run_cons. cbn zeta. rewrite Hs1.
  rewrite run_cons. cbn zeta. rewrite Hs2. cbn [completion state effects].
  rewrite run_cons. cbn zeta. rewrite run_nil, Hs3. cbn [completion state effects].
  rewrite app_nil_r, Hurl1.
  rewrite !sent_app, !scheduled_reconnects_app, !dialled_app.
  rewrite Hsent1, Hsched1, Hdial1, sent_open_lines, scheduled_open_lines, dialled_open_lines.
  rewrite Hsym2. cbn [sent scheduled_reconnects dialled flat_map app].
  unfold getSubscribedSymbols, array_from.
  repeat split.
  rewrite <- Hsym2. clear. now destruct s2.
Qed.

(** A [start()] whose socket opens: one socket is dialled, the connect
    timeout set for it is cleared again, the keepalive is started and the
    promise of [connect] resolved; nothing is sent, the set being empty. *)
Theorem start_then_open s :
  consistent s -> running s = false -> WebSocket_new (url_of s) = None ->
  let r := steps' [Call_start; Ws_open] s in
  actions (effects r) =
    [WsNew (url_of s); SetTimeout ConnectionTimeoutCallback 10000;
     ClearTimeout timeout_handle; SetInterval PingCallback 30000; Resolve] /\
  isRunning (state r) = true /\
  ws_is_open (state r) = true /\
  pingInterval (state r) = Some ping_handle /\
  connectionTimeout (state r) = None /\
  sent (effects r) = [].
Proof.
  intros C Hrun Hctor r. subst r.
  pose proof (stopped_symbols C Hrun) as Hsy.
  rewrite run_cons. cbn zeta. rewrite (start_dials s Hrun Hctor).
  cbn [completion state effects].
  rewrite run_cons. cbn zeta. rewrite run_nil.
  rewrite open_unfold with (w := {| readyState := CONNECTING |});
    [ | now destruct s | now destruct s | break_service s; subst; constructor ].
  cbn [completion state effects].
  break_service s. subst. cbn. repeat split.
Qed.

(** A [start()] whose socket does not open in time: the socket is
    terminated and the promise rejected with the timeout error - but the
    service stays running, so the close of the terminated socket
    schedules a reconnect like any other disconnect (clearing, on its
    way, a keepalive the service may still have held). *)
Theorem start_times_out s :
  running s = false -> WebSocket_new (url_of s) = None ->
  reconnectAttempts s < maxReconnectAttempts ->
  let r := steps' [Call_start; Timer_fires ConnectionTimeoutCallback; Ws_close false] s in
  actions (effects r) =
    [WsNew (url_of s); SetTimeout ConnectionTimeoutCallback 10000;
     WsTerminate; Reject (Error "WebSocket connection timeout")]
    ++ cleared ClearInterval (pingInterval s)
    ++ [SetTimeout ReconnectCallback (reconnectDelay * (reconnectAttempts s + 1))] /\
  isRunning (state r) = true.
Proof.
  intros Hrun Hctor Hlt r. subst r.
  rewrite run_cons. cbn zeta. rewrite (start_dials s Hrun Hctor).
  cbn [completion state effects].
  rewrite run_cons. cbn zeta.
  set (s2 := set_connectionTimeout (Some timeout_handle)
               (set_ws (Some {| readyState := CONNECTING |}) (set_running true s))).
  assert (Hs3 : step' (Timer_fires ConnectionTimeoutCallback) s2 =
            mkOutcome (Normal tt) (set_ws (Some {| readyState := CLOSING |}) s2)
              [Log error "Connection timeout"; WsTerminate;
               Reject (Error "WebSocket connection timeout")]).
  { unfold s2. now destruct s. }
  rewrite Hs3. cbn [completion state effects].
  rewrite run_cons. cbn zeta. rewrite run_nil. cbn [completion state effects].
  set (s3 := set_ws (Some {| readyState := CLOSING |}) s2).
  assert (F3 : running s3 = true /\ reconnectAttempts s3 = reconnectAttempts s /\
               pingInterval s3 = pingInterval s).
  { unfold s3, s2. break_service s. now subst. }
  destruct F3 as (Hrun3 & Hatt3 & Hping3).
  destruct (close_within_budget false s3 Hrun3 ltac:(now rewrite Hatt3)) as [Hst Hact].
  split.
  - unfold actions in *. rewrite !filter_app, app_nil_r.
    cbn [filter is_log negb app]. rewrite Hact, Hping3, Hatt3. reflexivity.
  - rewrite Hst. unfold isRunning, disconnected. clear - Hrun3.
    break_service s3. now destruct sock.
Qed.

(** The open of a socket the service has let go of, while the socket it
    holds is not open: the handler replays the set against the socket
    held, so every symbol is queued again and no frame goes out; it
    nevertheless resets the attempt counter, cancels the connect timeout
    - that of the socket held, the only handle there is - starts the
    keepalive and resolves the promise of the [connect] that created the
    socket which opened. *)
Theorem stale_open_sends_nothing s w :
  consistent s -> ws s = Some w -> ReadyState_eqb (readyState w) OPEN = false ->
  let r := step' Ws_open_stale s in
  sent (effects r) = [] /\
  state r =
    set_pingInterval (Some ping_handle)
      (set_connectionTimeout None (set_reconnectAttempts 0 s)) /\
  getSubscribedSymbols (state r) = getSubscribedSymbols s /\
  cancelled (effects r) = cancelled (cleared ClearTimeout (connectionTimeout s)) /\
  In Resolve (effects r).
Proof.
  intros C Hws Hrs r. subst r.
  pose proof (consistent_socket_running C Hws) as Hrun.
  rewrite dispatch_handler by reflexivity. cbn [handler].
  rewrite on_open_unfold. cbn zeta. cbn [state effects].
  set (s0 := set_connectionTimeout None (set_reconnectAttempts 0 s)).
  assert (Hnd : NoDup (subscribedSymbols s0)) by (destruct s; exact (symbols_nodup C)).
  assert (Hno : ws_is_open s0 = false).
  { unfold s0, ws_is_open. break_service s. subst. exact Hrs. }
  pose proof (resubscribeAll_symbols s0 Hnd) as Hsy.
  pose proof (resubscribeAll_not_open s0 Hno) as Hse.
  pose proof (resubscribeAll_effects s0) as Hef.
  destruct (resubscribeAll_frame_rule s0) as [_ [l Hl]].
  rewrite Hl in Hsy |- *.
  assert (Hl' : l = subscribedSymbols s).
  { unfold s0, has_socket in Hsy. break_service s. fields.
    rewrite Hrun, Hws in Hsy. exact Hsy. }
  subst l. split; [| split; [| split; [| split]]].
  - change (sent (?x :: ?r)) with (sent r).
    rewrite !sent_app, sent_cleared, Hse by (intros; exact I). reflexivity.
  - unfold s0. now destruct s.
  - unfold s0, getSubscribedSymbols. now destruct s.
  - change (cancelled (?x :: ?r)) with (cancelled r).
    unfold cancelled. rewrite !flat_map_app.
    assert (Hc : flat_map (fun e => match e with
                                    | ClearTimeout h | ClearInterval h => [callback h]
                                    | _ => []
                                    end) (effects (resubscribeAll s0)) = []).
    { revert Hef. generalize (effects (resubscribeAll s0)).
      induction l as [| e effs IH]; [reflexivity |].
      cbn [forallb]. intros H. apply andb_true_iff in H as [He H].
      destruct e; try discriminate; cbn; now apply IH. }
    rewrite Hc. cbn. now rewrite app_nil_r.
  - right. apply in_or_app. right. apply in_or_app. right. right. now left.
Qed.



End More.

Section Policy.

Variable JSON_parse : string -> option JSON.
Variable WebSocket_new : string -> option Exception.
Variable listeners : BusEvent -> option Exception.

Lemma step_quiet e s :
  is_close e = false ->
  forallb quiet_effect (effects (dispatch JSON_parse WebSocket_new listeners e s)) = true.
Proof.
  intros Hc. rewrite (dispatch_handler _ _ _ e s Hc).
  destruct e as [| | sym | sym | | data | err | stale | | | cb |];
    try discriminate; cbn [handler].
  - unfold discard, start, bind, this. destruct (running s).
    + reflexivity.
    + cbn -[connect]. rewrite connect_unfold. destruct (WebSocket_new _); reflexivity.
  - break_service s. destruct on, ping, tmo, sock; reflexivity.
  - apply subscription_effect_quiet, subscribe_effects.
  - apply subscription_effect_quiet, unsubscribe_effects.
  - rewrite bind_unfold, transport_unfold. cbn [completion state effects app].
    rewrite on_open_unfold. cbn zeta. cbn [effects forallb quiet_effect andb].
    rewrite !forallb_app, (subscription_effect_quiet _ (resubscribeAll_effects _)).
    now destruct (connectionTimeout _).
  - unfold on_message. apply decoder_effect_quiet, handleMessage_effects.
  - break_service s. destruct sock as [[[]] |]; reflexivity.
  - reflexivity.
  - reflexivity.
  - destruct cb; cbn.
    + break_service s. destruct sock as [[[]] |]; reflexivity.
    + break_service s. destruct sock as [[[]] |]; reflexivity.
    + unfold on_reconnectTimer, bind, this. destruct (running s); [| reflexivity].
      cbn -[connect]. rewrite connect_unfold. destruct (WebSocket_new _); reflexivity.
  - rewrite on_open_unfold. cbn zeta. cbn [effects forallb quiet_effect andb].
    rewrite !forallb_app, (subscription_effect_quiet _ (resubscribeAll_effects _)).
    now destruct (connectionTimeout _).
Qed.

(** The reconnect policy acts on disconnects of a running service and on
    nothing else: no other event, and no disconnect after [stop()], ever
    schedules a reconnect or reports the connection lost. *)
Theorem policy_acts_on_disconnects_only e s :
  scheduled_reconnects (effects (dispatch JSON_parse WebSocket_new listeners e s)) <> [] \/
  connection_lost (effects (dispatch JSON_parse WebSocket_new listeners e s)) <> 0%nat ->
  is_close e = true /\ running s = true.
Proof.
  intros H. destruct (is_close e) eqn:Hc.
  - split; [reflexivity |]. destruct (running s) eqn:Hrun; [reflexivity |]. exfalso.
    destruct e as [| | | | | | | stale | | | |]; try discriminate.
    break_service s. subst on.
    destruct stale, ping, sock, (attempts <? maxReconnectAttempts) eqn:E,
      (listeners market_connection_lost) eqn:L;
      revert H; close_step E L; intros [H | H]; now apply H.
  - exfalso. destruct (quiet_effects_silent _ (step_quiet e s Hc)) as [Hs Hl].
    rewrite Hs, Hl in H. destruct H as [H | H]; now apply H.
Qed.

End Policy.

Lemma policy_acts_on_disconnects_only_witness :
  is_close (Ws_close false) = true /\ running Sample.exhausted = true.
Proof.
  apply (@policy_acts_on_disconnects_only Sample.JSON_parse Sample.WebSocket_new Sample.listeners
           (Ws_close false) Sample.exhausted).
  right. cbn. discriminate.
Defined.

(* ===================================================================== *)
(** * Further properties of the decoder *)
(* ===================================================================== *)

Section DecodeMore.

Variable JSON_parse : string -> option JSON.
Variable listeners : BusEvent -> option Exception.

Local Abbreviation publish' := (publish listeners).

(** The loop over a batch ends at the first entry whose callback throws:
    the entries before it have been published, those after it are never
    looked at. *)
Lemma publish_cut pre x post e : forall s,
  Forall (fun e => e <> JNull) pre ->
  Forall (fun e => listeners (market_tick (tick_of_entry e)) = None) pre ->
  completion (publish' x s) = Throw e ->
  forEach publish' (pre ++ x :: post) s =
    mkOutcome (Throw e) s
      (flat_map (fun e => [Log debug "Market tick"; Emit (market_tick (tick_of_entry e))]) pre
       ++ effects (publish' x s)).
Proof.
  induction pre as [| y ys IH]; intros s H L Hx.
  - cbn [app forEach flat_map]. rewrite bind_unfold, Hx. now rewrite publish_state.
  - inversion H as [| ? ? Hy Hys]; subst. inversion L as [| ? ? Ly Lys]; subst.
    cbn [app forEach flat_map]. unfold bind. rewrite (publish_entry listeners s Hy Ly).
    now rewrite (IH s Hys Lys Hx).
Qed.

Lemma publish_independent entry s1 s2 :
  completion (publish' entry s1) = completion (publish' entry s2) /\
  effects (publish' entry s1) = effects (publish' entry s2).
Proof. rewrite !publish_unfold. destruct entry; split; reflexivity. Qed.

Lemma publish_all_independent entries : forall s1 s2,
  completion (forEach publish' entries s1) = completion (forEach publish' entries s2) /\
  effects (forEach publish' entries s1) = effects (forEach publish' entries s2).
Proof.
  induction entries as [| e es IH]; intros s1 s2; [split; reflexivity |].
  cbn [forEach]. rewrite !bind_unfold.
  destruct (publish_independent e s1 s2) as [Hc He]. rewrite Hc, He, !publish_state.
  destruct (completion (publish' e s2)); [| split; reflexivity].
  cbn [completion effects]. destruct (IH s1 s2) as [-> ->]. split; reflexivity.
Qed.

(** What the decoder does with a batch whose loop is cut short. *)
Lemma handleMessage_cut data s fields pre x post e :
  JSON_parse data = Some (JObject fields) ->
  lookup "type" fields = Some (JString "trade") ->
  lookup "data" fields = Some (JArray (pre ++ x :: post)) ->
  Forall (fun e => e <> JNull) pre ->
  Forall (fun e => listeners (market_tick (tick_of_entry e)) = None) pre ->
  completion (publish' x s) = Throw e ->
  handleMessage JSON_parse listeners data s =
    mkOutcome (Normal tt) s
      (Log debug "Received trade data"
         :: (flat_map (fun e => [Log debug "Market tick";
                                 Emit (market_tick (tick_of_entry e))]) pre
             ++ effects (publish' x s))
         ++ [Log error "Error handling WebSocket message"]).
Proof.
  intros Hparse Htype Hdata Hpre Hquiet Hx.
  unfold handleMessage, try_catch, parse, bind. rewrite Hparse.
  cbn -[forEach publish]. rewrite Htype, Hdata.
  change (strict_eq_string (Some (JString "trade")) "ping") with false.
  change (strict_eq_string (Some (JString "trade")) "trade") with true.
  change (truthy (Some (JArray (pre ++ x :: post)))) with true.
  cbn -[forEach publish]. rewrite (@publish_cut pre x post e s Hpre Hquiet Hx).
  reflexivity.
Qed.

Lemma ticks_app a b : ticks (a ++ b) = ticks a ++ ticks b.
Proof. unfold ticks, emitted. now rewrite !flat_map_app. Qed.

(** A [null] among the entries of a batch ends the decoding of the
    frame there: the entries before it have been published as ticks -
    no listener throwing on them - the ones after it are lost, and the
    exception stays inside. *)
Theorem torn_batch_prefix data s fields pre post :
  JSON_parse data = Some (JObject fields) ->
  lookup "type" fields = Some (JString "trade") ->
  lookup "data" fields = Some (JArray (pre ++ JNull :: post)) ->
  Forall (fun e => e <> JNull) pre ->
  Forall (fun e => listeners (market_tick (tick_of_entry e)) = None) pre ->
  let r := handleMessage JSON_parse listeners data s in
  completion r = Normal tt /\ state r = s /\
  ticks (effects r) = map tick_of_entry pre.
Proof.
  intros Hparse Htype Hdata Hpre Hquiet r. subst r.
  rewrite (@handleMessage_cut data s fields pre JNull post TypeError
             Hparse Htype Hdata Hpre Hquiet eq_refl).
  cbn [completion state effects]. repeat split.
  change (ticks (Log debug "Received trade data" :: ?l)) with (ticks l).
  rewrite !ticks_app, ticks_of_published. cbn [effects publish].
  change (ticks (effects (publish' JNull s))) with (@nil MarketTick).
  change (ticks [Log error "Error handling WebSocket message"]) with (@nil MarketTick).
  now rewrite !app_nil_r.
Qed.

(** A listener of 'market:tick' that throws ends the decoding of the
    frame in the same way: its tick is the last one published, the
    entries after it are lost, and the exception is caught and logged
    inside [handleMessage]. *)
Theorem listener_throw_cuts_batch data s fields pre x post e :
  JSON_parse data = Some (JObject fields) ->
  lookup "type" fields = Some (JString "trade") ->
  lookup "data" fields = Some (JArray (pre ++ x :: post)) ->
  Forall (fun e => e <> JNull) pre ->
  Forall (fun e => listeners (market_tick (tick_of_entry e)) = None) pre ->
  x <> JNull -> listeners (market_tick (tick_of_entry x)) = Some e ->
  let r := handleMessage JSON_parse listeners data s in
  completion r = Normal tt /\ state r = s /\
  ticks (effects r) = map tick_of_entry (pre ++ [x]) /\
  In (Log error "Error handling WebSocket message") (effects r).
Proof.
  intros Hparse Htype Hdata Hpre Hquiet Hx Hthrow r. subst r.
  assert (Hpub : publish' x s =
            mkOutcome (Throw e) s
              [Log debug "Market tick"; Emit (market_tick (tick_of_entry x))])
    by now apply publish_thrown.
  rewrite (@handleMessage_cut data s fields pre x post e
             Hparse Htype Hdata Hpre Hquiet ltac:(now rewrite Hpub)).
  rewrite Hpub. cbn [completion state effects]. repeat split.
  - change (ticks (Log debug "Received trade data" :: ?l)) with (ticks l).
    rewrite !ticks_app, ticks_of_published, map_app. cbn. now rewrite app_nil_r.
  - right. apply in_or_app. right. now left.
Qed.

(** A trade frame whose [data] is missing or is not an array publishes
    nothing and does not disturb the service. *)
Theorem trade_without_array data s fields :
  JSON_parse data = Some (JObject fields) ->
  lookup "type" fields = Some (JString "trade") ->
  (forall items, lookup "data" fields <> Some (JArray items)) ->
  let r := handleMessage JSON_parse listeners data s in
  completion r = Normal tt /\ state r = s /\ emitted (effects r) = [].
Proof.
  intros Hparse Htype Hdata r. subst r.
  unfold handleMessage, try_catch, parse, bind. rewrite Hparse.
  cbn -[forEach publish]. rewrite Htype.
  change (strict_eq_string (Some (JString "trade")) "ping") with false.
  change (strict_eq_string (Some (JString "trade")) "trade") with true.
  cbn -[forEach publish].
  destruct (lookup "data" fields) as [[| b | n | str | items | fs] |] eqn:E;
    try (destruct (truthy _); repeat split; fail).
  exfalso. now apply (Hdata items).
Qed.

(** What the decoder publishes depends on the frame alone, not on the
    state of the service: a frame arriving after [stop()] still gives its
    ticks. *)
Theorem decoder_ignores_state data s1 s2 :
  completion (handleMessage JSON_parse listeners data s1) =
    completion (handleMessage JSON_parse listeners data s2) /\
  effects (handleMessage JSON_parse listeners data s1) =
    effects (handleMessage JSON_parse listeners data s2).
Proof.
  unfold handleMessage, try_catch, parse, bind.
  destruct (JSON_parse data) as [message |]; [| split; reflexivity].
  destruct message as [| b | n | str | items | fields]; try (split; reflexivity).
  cbn -[forEach publish]. destruct (lookup "type" fields) as [type |]; [| split; reflexivity].
  cbn -[forEach publish].
  destruct (strict_eq_string (Some type) "ping"); [split; reflexivity |].
  destruct (strict_eq_string (Some type) "trade"); [| split; reflexivity].
  cbn -[forEach publish]. destruct (truthy (lookup "data" fields)); [| split; reflexivity].
  cbn -[forEach publish].
  destruct (lookup "data" fields) as [[| b | n | str | items | fs] |];
    try (split; reflexivity).
  cbn -[forEach publish].
  destruct (publish_all_independent items s1 s2) as [Hc He].
  destruct (forEach publish' items s1) as [c1 t1 e1], (forEach publish' items s2) as [c2 t2 e2].
  cbn in Hc, He. subst. destruct c2 as [[] | e]; split; reflexivity.
Qed.

End DecodeMore.

(* ===================================================================== *)
(** * Instances *)
(* ===================================================================== *)

Lemma torn_batch_prefix_witness :
  let r := handleMessage Sample.JSON_parse TestFinnhub.listeners
             Sample.torn_text Sample.open in
  completion r = Normal tt /\ state r = Sample.open /\
  ticks (effects r) =
    map tick_of_entry [JObject [("s", JString "AAPL"); ("p", JNumber 1%float);
                                ("v", JNumber 1%float); ("t", JNumber 1%float)]].
Proof.
  apply (@torn_batch_prefix Sample.JSON_parse TestFinnhub.listeners
           Sample.torn_text Sample.open
           [("type", JString "trade");
            ("data", JArray [JObject [("s", JString "AAPL"); ("p", JNumber 1%float);
                                      ("v", JNumber 1%float); ("t", JNumber 1%float)];
                             JNull])]
           [JObject [("s", JString "AAPL"); ("p", JNumber 1%float);
                     ("v", JNumber 1%float); ("t", JNumber 1%float)]] []).
  - reflexivity.
  - reflexivity.
  - reflexivity.
  - constructor; [discriminate | constructor].
  - constructor; [reflexivity | constructor].
Defined.

Lemma listener_throw_cuts_batch_witness :
  let r := handleMessage TestFinnhub.JSON_parse TestFinnhub.listeners
             TestFinnhub.unpriced_text Sample.open in
  completion r = Normal tt /\ state r = Sample.open /\
  ticks (effects r) = map tick_of_entry ([] ++ [TestFinnhub.unpriced]) /\
  In (Log error "Error handling WebSocket message") (effects r).
Proof.
  apply (@listener_throw_cuts_batch TestFinnhub.JSON_parse TestFinnhub.listeners
           TestFinnhub.unpriced_text Sample.open
           [("type", JString "trade");
            ("data", JArray [TestFinnhub.unpriced; trade_json TestFinnhub.msft])]
           [] TestFinnhub.unpriced [trade_json TestFinnhub.msft] TypeError).
  - reflexivity.
  - reflexivity.
  - reflexivity.
  - constructor.
  - constructor.
  - discriminate.
  - reflexivity.
Defined.

Lemma trade_without_array_witness :
  let r := handleMessage Faulty.JSON_parse Sample.listeners Faulty.bare_trade_text Sample.open in
  completion r = Normal tt /\ state r = Sample.open /\ emitted (effects r) = [].
Proof.
  apply (@trade_without_array Faulty.JSON_parse Sample.listeners Faulty.bare_trade_text Sample.open
           [("type", JString "trade")]).
  - reflexivity.
  - reflexivity.
  - intros items. discriminate.
Defined.

Lemma sends_only_when_open_witness :
  sent (effects (dispatch Sample.JSON_parse Sample.WebSocket_new Sample.listeners
                   (Call_subscribe "AAPL") Sample.connecting)) = [].
Proof.
  apply (@sends_only_when_open Sample.JSON_parse Sample.WebSocket_new Sample.listeners
           (Call_subscribe "AAPL") Sample.connecting).
  reflexivity.
Defined.

Lemma stopped_is_inert_witness :
  let s := state (stop Sample.exhausted) in
  let r := dispatch Sample.JSON_parse Sample.WebSocket_new Sample.listeners
             Ws_open_stale s in
  (state r = set_pingInterval (Some ping_handle) (set_reconnectAttempts 0 s) /\
   actions (effects r) = [SetInterval PingCallback 30000; Resolve]) /\
  isRunning (state r) = false /\
  sent (effects r) = [] /\
  dialled (effects r) = [] /\
  scheduled_reconnects (effects r) = [] /\
  connection_lost (effects r) = 0%nat.
Proof.
  apply (@stopped_is_inert Sample.JSON_parse Sample.WebSocket_new Sample.listeners
           Ws_open_stale (state (stop Sample.exhausted))).
  - constructor; cbn; intros; trivial. constructor.
  - reflexivity.
  - reflexivity.
Defined.

Lemma attempts_change_only_on_open_or_close_witness :
  reconnectAttempts (state (dispatch Sample.JSON_parse Sample.WebSocket_new Sample.listeners
                              Call_stop Sample.exhausted)) = 5.
Proof.
  apply (@attempts_change_only_on_open_or_close Sample.JSON_parse Sample.WebSocket_new
           Sample.listeners
           Call_stop Sample.exhausted); reflexivity.
Defined.

Lemma attempts_within_budget_witness :
  reconnectAttempts
    (state (run Sample.JSON_parse Sample.WebSocket_new Sample.listeners
              (Call_start :: Ws_open :: repeat (Ws_close false) 7) Sample.fresh))
    <= maxReconnectAttempts.
Proof.
  apply (@attempts_within_budget Sample.JSON_parse Sample.WebSocket_new Sample.listeners).
  apply reachable_run; [apply reachable_new | reflexivity].
Defined.

Lemma open_restores_budget_witness :
  let s := set_reconnectAttempts 3 Sample.connecting in
  let s' := state (dispatch Sample.JSON_parse Sample.WebSocket_new Sample.listeners Ws_open s) in
  reconnectAttempts s' = 0 /\
  scheduled_reconnects
    (effects (dispatch Sample.JSON_parse Sample.WebSocket_new Sample.listeners (Ws_close false) s'))
    = [reconnectDelay] /\
  connection_lost
    (effects (dispatch Sample.JSON_parse Sample.WebSocket_new Sample.listeners
                (Ws_close false) s')) = 0%nat.
Proof.
  apply (@open_restores_budget Sample.JSON_parse Sample.WebSocket_new Sample.listeners false
           (set_reconnectAttempts 3 Sample.connecting)).
  - constructor; cbn; try discriminate. constructor.
  - reflexivity.
Defined.

Lemma sockets_dial_the_configured_url_witness :
  "wss://ws.finnhub.io?token=token" =
    (wsUrl Sample.fresh ++ "?token=" ++ apiKey Sample.fresh)%string.
Proof.
  apply (@sockets_dial_the_configured_url Sample.JSON_parse Sample.WebSocket_new Sample.listeners
           [Call_start] Sample.fresh "wss://ws.finnhub.io?token=token").
  cbn. now left.
Defined.

Lemma start_constructor_throws_witness :
  let r := start Faulty.WebSocket_new Sample.fresh in
  completion r = Normal (Rejected SyntaxError) /\
  isRunning (state r) = true /\
  ws (state r) = ws Sample.fresh /\
  actions (effects r) = [WsNew (url_of Sample.fresh); Reject SyntaxError] /\
  start Faulty.WebSocket_new (state r) =
    mkOutcome (Normal Fulfilled) (state r) [Log warn "Service already running"].
Proof.
  apply (@start_constructor_throws Faulty.WebSocket_new Sample.fresh SyntaxError);
    reflexivity.
Defined.

Lemma stop_leaves_fresh_witness :
  state (stop Sample.open) =
    set_reconnectAttempts (reconnectAttempts Sample.open)
      (new_MarketDataService (apiKey Sample.open) (wsUrl Sample.open)) /\
  closes (effects (stop Sample.open)) = (if has_socket Sample.open then 1 else 0)%nat.
Proof. apply (@stop_leaves_fresh Sample.open). reflexivity. Defined.

Lemma reconnect_replays_subscriptions_witness :
  let s := with_symbols (fun _ => ["AAPL"; "MSFT"]) Sample.open in
  let r := run Sample.JSON_parse Sample.WebSocket_new Sample.listeners
               [Ws_close false; Timer_fires ReconnectCallback; Ws_open] s in
  sent (effects r) = map (frame "subscribe") (getSubscribedSymbols s) /\
  getSubscribedSymbols (state r) = getSubscribedSymbols s /\
  ws_is_open (state r) = true /\
  reconnectAttempts (state r) = 0 /\
  scheduled_reconnects (effects r) = [reconnectDelay * (reconnectAttempts s + 1)] /\
  dialled (effects r) = [url_of s].
Proof.
  apply (@reconnect_replays_subscriptions Sample.JSON_parse Sample.WebSocket_new
           Sample.listeners false
           (with_symbols (fun _ => ["AAPL"; "MSFT"]) Sample.open)).
  - constructor; cbn; try discriminate.
    repeat constructor; cbn; intuition discriminate.
  - reflexivity.
  - reflexivity.
  - reflexivity.
Defined.

Lemma start_then_open_witness :
  let r := run Sample.JSON_parse Sample.WebSocket_new Sample.listeners
               [Call_start; Ws_open] Sample.fresh in
  actions (effects r) =
    [WsNew (url_of Sample.fresh); SetTimeout ConnectionTimeoutCallback 10000;
     ClearTimeout timeout_handle; SetInterval PingCallback 30000; Resolve] /\
  isRunning (state r) = true /\
  ws_is_open (state r) = true /\
  pingInterval (state r) = Some ping_handle /\
  connectionTimeout (state r) = None /\
  sent (effects r) = [].
Proof.
  apply (@start_then_open Sample.JSON_parse Sample.WebSocket_new Sample.listeners Sample.fresh).
  - constructor; cbn; intros; trivial. constructor.
  - reflexivity.
  - reflexivity.
Defined.

Lemma stale_open_sends_nothing_witness :
  let s := with_symbols (fun _ => ["AAPL"]) Sample.connecting in
  let r := dispatch Sample.JSON_parse Sample.WebSocket_new Sample.listeners
             Ws_open_stale s in
  sent (effects r) = [] /\
  state r =
    set_pingInterval (Some ping_handle)
      (set_connectionTimeout None (set_reconnectAttempts 0 s)) /\
  getSubscribedSymbols (state r) = getSubscribedSymbols s /\
  cancelled (effects r) = cancelled (cleared ClearTimeout (connectionTimeout s)) /\
  In Resolve (effects r).
Proof.
  apply (@stale_open_sends_nothing Sample.JSON_parse Sample.WebSocket_new Sample.listeners
           (with_symbols (fun _ => ["AAPL"]) Sample.connecting)
           {| readyState := CONNECTING |}).
  - constructor; cbn; try discriminate. repeat constructor. intros [].
  - reflexivity.
  - reflexivity.
Defined.


Lemma start_times_out_witness :
  let s := set_pingInterval (Some ping_handle) Sample.fresh in
  let r := run Sample.JSON_parse Sample.WebSocket_new Sample.listeners
               [Call_start; Timer_fires ConnectionTimeoutCallback; Ws_close false] s in
  actions (effects r) =
    [WsNew (url_of s); SetTimeout ConnectionTimeoutCallback 10000;
     WsTerminate; Reject (Error "WebSocket connection timeout")]
    ++ cleared ClearInterval (pingInterval s)
    ++ [SetTimeout ReconnectCallback (reconnectDelay * (reconnectAttempts s + 1))] /\
  isRunning (state r) = true.
Proof.
  apply (@start_times_out Sample.JSON_parse Sample.WebSocket_new Sample.listeners
           (set_pingInterval (Some ping_handle) Sample.fresh)).
  - reflexivity.
  - reflexivity.
  - reflexivity.
Defined.

(* ===================================================================== *)
(** * The logger and the configuration helpers *)
(* ===================================================================== *)

Lemma indexOf_bounds x l : (-1 <= Logger.indexOf x l < Z.of_nat (List.length l))%Z.
Proof.
  induction l as [| y l IH]; cbn [Logger.indexOf List.length]; [lia |].
  destruct (String.eqb y x); [lia |].
  destruct (Z.ltb_spec (Logger.indexOf x l) 0); lia.
Qed.

Lemma indexOf_absent x l : ~ In x l -> Logger.indexOf x l = (-1)%Z.
Proof.
  induction l as [| y l IH]; intros H; cbn [Logger.indexOf]; [reflexivity |].
  destruct (String.eqb_spec y x) as [-> | _]; [exfalso; apply H; now left |].
  rewrite IH by (intros Hin; apply H; now right). reflexivity.
Qed.

(** No setting of the level silences errors: an error message is
    printed whatever [LOG_LEVEL] holds. *)
Theorem error_is_always_logged lg : Logger.shouldLog lg "error" = true.
Proof.
  unfold Logger.shouldLog. cbn zeta.
  change (Logger.indexOf "error" Logger.levels) with 3%Z.
  pose proof (indexOf_bounds (Logger.logLevel lg) Logger.levels) as H.
  change (Z.of_nat (List.length Logger.levels)) with 4%Z in H.
  apply Z.geb_le. lia.
Qed.

(** A level that is none of debug, info, warn, error switches the filter
    off: every message is printed, debug included. *)
Theorem unknown_level_logs_everything lg level :
  ~ In (Logger.logLevel lg) Logger.levels -> Logger.shouldLog lg level = true.
Proof.
  intros H. unfold Logger.shouldLog. cbn zeta. rewrite (indexOf_absent _ _ H).
  pose proof (indexOf_bounds level Logger.levels). apply Z.geb_le. lia.
Qed.

Lemma unknown_level_logs_everything_witness :
  Logger.shouldLog (Logger.new_Logger (Some "verbose") "MarketDataService") "debug" = true.
Proof.
  apply (@unknown_level_logs_everything
           (Logger.new_Logger (Some "verbose") "MarketDataService") "debug").
  cbn. intuition discriminate.
Defined.

(** With [LOG_LEVEL] unset or empty the logger works at level info: of
    the four levels, debug alone is suppressed. *)
Theorem default_level_is_info env ctx level :
  env = None \/ env = Some ""%string -> In level Logger.levels ->
  Logger.shouldLog (Logger.new_Logger env ctx) level = negb (String.eqb level "debug").
Proof.
  intros [-> | ->] [<- | [<- | [<- | [<- | []]]]]; reflexivity.
Qed.

Lemma default_level_is_info_witness :
  Logger.shouldLog (Logger.new_Logger None "MarketDataService") "debug"
    = negb (String.eqb "debug" "debug").
Proof.
  apply (@default_level_is_info None "MarketDataService" "debug");
    [now left | now left].
Defined.

(** [getEnvVar] either throws or hands back the non-empty value of the
    variable, and [getEnvVarOrDefault] is [getEnvVar] with the default in
    place of the exception. *)
Theorem getEnvVar_or_default env key defaultValue :
  (forall v, Config.getEnvVar env key = inr v -> env key = Some v /\ v <> ""%string) /\
  Config.getEnvVarOrDefault env key defaultValue =
    match Config.getEnvVar env key with
    | inr v => v
    | inl _ => defaultValue
    end.
Proof.
  unfold Config.getEnvVar, Config.getEnvVarOrDefault.
  destruct (env key) as [value |]; [| split; [discriminate | reflexivity]].
  destruct (String.eqb_spec value "") as [-> | Hne]; split;
    try discriminate; try reflexivity.
  intros v Hv. injection Hv as <-. now split.
Qed.

Lemma split_plain x : Config.has_comma x = false -> Config.split x = [x].
Proof.
  induction x as [| c x IH]; cbn; [reflexivity |].
  intros H. apply orb_false_iff in H as [Hc Hx]. rewrite Hc, (IH Hx). reflexivity.
Qed.

Lemma split_append x rest :
  Config.has_comma x = false ->
  Config.split (x ++ String Config.comma rest) = x :: Config.split rest.
Proof.
  induction x as [| c x IH]; cbn.
  - intros _. reflexivity.
  - intros H. apply orb_false_iff in H as [Hc Hx]. rewrite Hc, (IH Hx). reflexivity.
Qed.

(** [split] undoes [join]: a list of comma-free strings joined by commas
    splits into the same list. *)
Lemma split_concat xs :
  xs <> [] -> Forall (fun x => Config.has_comma x = false) xs ->
  Config.split (String.concat "," xs) = xs.
Proof.
  induction xs as [| x xs IH]; [congruence |].
  intros _ H. inversion H as [| ? ? Hx Hxs]; subst.
  destruct xs as [| y ys].
  - cbn. now apply split_plain.
  - change (String.concat "," (x :: y :: ys))
      with (x ++ String Config.comma (String.concat "," (y :: ys)))%string.
    rewrite split_append by exact Hx.
    rewrite IH; [reflexivity | discriminate | assumption].
Qed.

Section ParseArrayFacts.

Variable trim : string -> string.

(** A list of entries, each non-empty, free of commas and of surrounding
    blanks, written out with commas between them, is read back by
    [parseArray] as the same list. *)
Theorem parseArray_join_roundtrip xs defaultValue :
  xs <> [] -> Forall (Config.plain trim) xs ->
  Config.parseArray trim (Some (String.concat "," xs)) defaultValue = xs.
Proof.
  intros Hne Hall. unfold Config.parseArray.
  assert (Hval : String.eqb (String.concat "," xs) "" = false).
  { destruct xs as [| x xs]; [congruence |].
    inversion Hall as [| ? ? [Hx _] _]; subst.
    destruct x as [| c x]; [congruence |].
    destruct xs; reflexivity. }
  rewrite Hval, split_concat; [| assumption |].
  - rewrite (map_ext_in trim (fun x => x)), map_id.
    + apply forallb_filter_id. apply forallb_forall. intros x Hx.
      rewrite Forall_forall in Hall. destruct (Hall x Hx) as [H _].
      unfold Config.nonempty. now destruct (String.eqb_spec x "").
    + intros x Hx. rewrite Forall_forall in Hall. now destruct (Hall x Hx) as (_ & _ & H).
  - eapply Forall_impl; [| exact Hall]. now intros x (_ & H & _).
Qed.

End ParseArrayFacts.

Lemma parseArray_join_roundtrip_witness :
  Config.parseArray (fun x => x) (Some (String.concat "," ["reuters"; "bloomberg"])) []
    = ["reuters"; "bloomberg"].
Proof.
  apply (@parseArray_join_roundtrip (fun x => x) ["reuters"; "bloomberg"] []).
  - discriminate.
  - repeat constructor; discriminate.
Defined.

(* ===================================================================== *)
(** * The notification queue: order, pace and shutdown *)
(* ===================================================================== *)

Section NotifierFacts.

Variable Message : Type.

Local Abbreviation NState := (Notifier.State Message).
Local Abbreviation NEvent := (Notifier.Event Message).

Ltac break_notifier st :=
  let r := fresh "on" in let q := fresh "queue" in
  let p := fresh "busy" in let a := fresh "at_await" in
  destruct st as [r q p a];
  cbn [Notifier.running Notifier.messageQueue Notifier.processing Notifier.suspended] in *.

Lemma mailed_app (a b : list (Notifier.Effect Message)) :
  Notifier.mailed (a ++ b) = Notifier.mailed a ++ Notifier.mailed b.
Proof. unfold Notifier.mailed. apply flat_map_app. Qed.

Lemma pace_app (a b : list (Notifier.Effect Message)) :
  Notifier.pace (a ++ b) = Notifier.pace a ++ Notifier.pace b.
Proof. unfold Notifier.pace. apply flat_map_app. Qed.

Lemma loop_fifo (st : NState) :
  Notifier.mailed (snd (Notifier.loop st)) ++ Notifier.messageQueue (fst (Notifier.loop st))
    = Notifier.messageQueue st.
Proof. break_notifier st. destruct queue as [| m rest], on; reflexivity. Qed.

Lemma processQueue_fifo (st : NState) :
  Notifier.mailed (snd (Notifier.processQueue st))
    ++ Notifier.messageQueue (fst (Notifier.processQueue st))
    = Notifier.messageQueue st.
Proof.
  unfold Notifier.processQueue.
  destruct (Notifier.processing st || (List.length (Notifier.messageQueue st) =? 0)%nat);
    [reflexivity |].
  now rewrite loop_fifo.
Qed.

(** Without [running] the loop takes nothing out of the queue. *)
Lemma processQueue_stopped (st : NState) :
  Notifier.running st = false ->
  Notifier.mailed (snd (Notifier.processQueue st)) = [] /\
  Notifier.messageQueue (fst (Notifier.processQueue st)) = Notifier.messageQueue st /\
  Notifier.running (fst (Notifier.processQueue st)) = false.
Proof.
  break_notifier st. intros ->. unfold Notifier.processQueue. cbn.
  destruct busy; cbn; [now repeat split |].
  destruct queue as [| m rest]; cbn; now repeat split.
Qed.

Lemma stop_fifo (st : NState) :
  Notifier.mailed (snd (Notifier.stop st)) = [] /\
  Notifier.messageQueue (fst (Notifier.stop st)) = Notifier.messageQueue st.
Proof.
  break_notifier st. unfold Notifier.stop. cbn.
  destruct on; cbn; [| now split].
  destruct queue as [| m rest]; cbn; [now split |].
  unfold Notifier.processQueue. cbn. destruct busy; now split.
Qed.

(** [stop()] mails none of the messages still in the queue: it clears
    [running] before it calls the loop, whose test then fails at once.
    The messages stay in the queue - although, when there are any, the
    log says they are being processed. *)
Theorem stop_leaves_queue_unsent (st : NState) :
  Notifier.mailed (snd (Notifier.stop st)) = [] /\
  Notifier.messageQueue (fst (Notifier.stop st)) = Notifier.messageQueue st /\
  Notifier.isRunning (fst (Notifier.stop st)) = false /\
  (if Notifier.running st && negb (List.length (Notifier.messageQueue st) =? 0)%nat
   then In (Notifier.Log Message info
              ("Processing "
               ++ number_to_string (N.of_nat (List.length (Notifier.messageQueue st)))
               ++ " remaining messages")%string)
           (snd (Notifier.stop st))
   else True).
Proof.
  break_notifier st. unfold Notifier.stop, Notifier.isRunning. cbn.
  destruct on; cbn; [| now repeat split].
  destruct queue as [| m rest]; cbn; [now repeat split |].
  unfold Notifier.processQueue. cbn.
  destruct busy; cbn; repeat split; right; now left.
Qed.

Lemma dispatch_fifo (e : NEvent) (st : NState) :
  Notifier.mailed (snd (Notifier.dispatch e st))
    ++ Notifier.messageQueue (fst (Notifier.dispatch e st))
    = Notifier.messageQueue st ++ Notifier.queued [e].
Proof.
  destruct e as [| | m |]; cbn [Notifier.dispatch Notifier.queued flat_map app].
  - rewrite app_nil_r. unfold Notifier.start. now destruct (Notifier.running st).
  - rewrite app_nil_r. destruct (stop_fifo st) as (-> & ->). reflexivity.
  - unfold Notifier.queueMessage. cbn zeta.
    cbn [Notifier.processing].
    destruct (Notifier.processing st) eqn:Hp; cbn [negb].
    + reflexivity.
    + pose proof (processQueue_fifo
                    (Notifier.mkState (Notifier.running st) (Notifier.messageQueue st ++ [m])
                       (Notifier.processing st) (Notifier.suspended st))) as H.
      rewrite Hp in H.
      destruct (Notifier.processQueue _) as [st2 effs]. cbn in *. exact H.
  - rewrite app_nil_r. unfold Notifier.resume.
    destruct (Notifier.suspended st) as [[|] |]; [reflexivity | apply loop_fifo | reflexivity].
Qed.

Lemma run_fifo (events : list NEvent) : forall st : NState,
  Notifier.mailed (snd (Notifier.run events st))
    ++ Notifier.messageQueue (fst (Notifier.run events st))
    = Notifier.messageQueue st ++ Notifier.queued events.
Proof.
  induction events as [| e es IH]; intros st.
  - cbn. now rewrite app_nil_r.
  - cbn [Notifier.run]. pose proof (dispatch_fifo e st) as He.
    destruct (Notifier.dispatch e st) as [st1 effs1]. specialize (IH st1).
    destruct (Notifier.run es st1) as [st2 effs2]. cbn [fst snd] in *.
    rewrite mailed_app, <- app_assoc, IH, app_assoc, He, <- app_assoc.
    now destruct e.
Qed.

(** The queue is first in, first out, and loses and repeats nothing:
    after any run of events, the messages mailed so far followed by the
    messages still waiting are the messages that were there followed by
    the messages queued since, in the order they were queued. *)
Theorem queue_is_fifo (events : list NEvent) (st : NState) :
  Notifier.mailed (snd (Notifier.run events st))
    ++ Notifier.messageQueue (fst (Notifier.run events st))
    = Notifier.messageQueue st ++ Notifier.queued events.
Proof. apply run_fifo. Qed.

Lemma dispatch_stopped (e : NEvent) (st : NState) :
  Notifier.running st = false ->
  match e with Notifier.Call_start _ => false | _ => true end = true ->
  Notifier.mailed (snd (Notifier.dispatch e st)) = [] /\
  Notifier.running (fst (Notifier.dispatch e st)) = false.
Proof.
  intros Hrun He. destruct e as [| | m |]; try discriminate; cbn [Notifier.dispatch].
  - unfold Notifier.stop. rewrite Hrun. now split.
  - unfold Notifier.queueMessage. cbn zeta. cbn [Notifier.processing].
    destruct (Notifier.processing st) eqn:Hp; cbn [negb]; [now split |].
    pose proof (@processQueue_stopped
                  (Notifier.mkState (Notifier.running st) (Notifier.messageQueue st ++ [m])
                     (Notifier.processing st) (Notifier.suspended st)) Hrun) as H.
    rewrite Hp in H.
    destruct (Notifier.processQueue _) as [st2 effs]. cbn in *. now destruct H as (-> & _ & ->).
  - break_notifier st. subst on. unfold Notifier.resume. cbn.
    destruct at_await as [[|] |]; cbn; try now split.
    destruct queue; now split.
Qed.

(** While the service is stopped nothing is mailed: whatever is queued
    and however often the loop is resumed, no message leaves the queue
    before the next [start()]. *)
Theorem stopped_mails_nothing (events : list NEvent) : forall st : NState,
  Notifier.running st = false -> Notifier.has_start events = false ->
  Notifier.mailed (snd (Notifier.run events st)) = [] /\
  Notifier.messageQueue (fst (Notifier.run events st))
    = Notifier.messageQueue st ++ Notifier.queued events.
Proof.
  intros st Hrun Hev.
  assert (H : Notifier.mailed (snd (Notifier.run events st)) = []).
  { revert st Hrun Hev. induction events as [| e es IH]; intros st Hrun Hev; [reflexivity |].
    cbn [Notifier.has_start existsb] in Hev. apply orb_false_iff in Hev as [He Hes].
    cbn [Notifier.run].
    destruct (@dispatch_stopped e st Hrun) as [Hm Hr]; [now destruct e |].
    destruct (Notifier.dispatch e st) as [st1 effs1]. cbn [fst snd] in *.
    specialize (IH st1 Hr Hes). destruct (Notifier.run es st1) as [st2 effs2].
    cbn [fst snd] in *. now rewrite mailed_app, Hm, IH. }
  split; [exact H |]. pose proof (run_fifo events st) as F. now rewrite H in F.
Qed.

Lemma dispatch_pace (e : NEvent) (st : NState) :
  Notifier.coherent st ->
  Notifier.coherent (fst (Notifier.dispatch e st)) /\
  forall q, Notifier.alternates (Notifier.mail_next (fst (Notifier.dispatch e st))) q = true ->
            Notifier.alternates (Notifier.mail_next st)
              (Notifier.pace (snd (Notifier.dispatch e st)) ++ q) = true.
Proof.
  unfold Notifier.coherent. intros C. break_notifier st.
  destruct busy, at_await as [[|] |];
    try (exfalso; destruct C as [C1 C2];
         first [ now apply C1
               | assert (false = true) by (apply C2; discriminate); discriminate ]);
    destruct e as [| | m |], on, queue as [| m0 rest]; cbn;
    (split;
     [ split; intros; first [discriminate | congruence | reflexivity]
     | intros q Hq; cbn; exact Hq ]).
Qed.

(** Mails are paced: in every run, a mail and the start of a one second
    delay alternate - no two messages are mailed without a delay
    between them, however the events fall. *)
Theorem mails_are_paced (events : list NEvent) : forall st : NState,
  Notifier.coherent st ->
  Notifier.alternates (Notifier.mail_next st) (Notifier.pace (snd (Notifier.run events st)))
    = true.
Proof.
  induction events as [| e es IH]; intros st C; [reflexivity |].
  cbn [Notifier.run]. destruct (dispatch_pace e C) as [C1 H].
  destruct (Notifier.dispatch e st) as [st1 effs1]. cbn [fst snd] in *.
  specialize (IH st1 C1). destruct (Notifier.run es st1) as [st2 effs2].
  cbn [fst snd] in *. rewrite pace_app. now apply H.
Qed.

End NotifierFacts.

Lemma stopped_mails_nothing_witness :
  let events := [Notifier.Queue "lost"; Notifier.Resume string; Notifier.Call_stop string;
                 Notifier.Queue "again"] in
  Notifier.mailed (snd (Notifier.run events (Notifier.new_NotificationService string))) = [] /\
  Notifier.messageQueue (fst (Notifier.run events (Notifier.new_NotificationService string)))
    = Notifier.messageQueue (Notifier.new_NotificationService string)
      ++ Notifier.queued events.
Proof.
  apply (@stopped_mails_nothing string
           [Notifier.Queue "lost"; Notifier.Resume string; Notifier.Call_stop string;
            Notifier.Queue "again"]
           (Notifier.new_NotificationService string)); reflexivity.
Defined.

Lemma mails_are_paced_witness :
  let events := [Notifier.Call_start string; Notifier.Queue "a"; Notifier.Queue "b";
                 Notifier.Resume string; Notifier.Resume string; Notifier.Resume string;
                 Notifier.Resume string; Notifier.Queue "c"] in
  Notifier.alternates (Notifier.mail_next (Notifier.new_NotificationService string))
    (Notifier.pace (snd (Notifier.run events (Notifier.new_NotificationService string))))
    = true.
Proof.
  apply (@mails_are_paced string
           [Notifier.Call_start string; Notifier.Queue "a"; Notifier.Queue "b";
            Notifier.Resume string; Notifier.Resume string; Notifier.Resume string;
            Notifier.Resume string; Notifier.Queue "c"]
           (Notifier.new_NotificationService string)).
  unfold Notifier.coherent. cbn. split; [discriminate | congruence].
Defined.

(** The run of the last instance: three messages, mailed in order, a
    delay after each of the first two. *)
Example notifier_run :
  let events := [Notifier.Call_start string; Notifier.Queue "a"; Notifier.Queue "b";
                 Notifier.Resume string; Notifier.Resume string; Notifier.Resume string;
                 Notifier.Resume string; Notifier.Queue "c"] in
  let r := Notifier.run events (Notifier.new_NotificationService string) in
  Notifier.mailed (snd r) = ["a"; "b"; "c"] /\ Notifier.messageQueue (fst r) = [] /\
  Notifier.pace (snd r) = [true; false; true; false; true].
Proof. cbn. repeat split. Qed.

